(** * cocoon: built-in validators and reflection helpers

    A shallow embedding of the validator set of package [main]
    (IsEmpty, IsNotEmpty, IsMin, IsMax, IsLowerCase, IsUpperCase, IsNumeric)
    and of the reflection helpers of package [core]
    (FullName, GetStructFields, CallDynamicMethod), together with the
    parts of the Go standard library they call ([strconv], [unicode],
    [unicode/utf8], [strings.Join], and the fragment of [reflect] they
    observe).

    Conventions.
    - A Go [string] is a sequence of bytes: [String.string].
    - Go's [int] is taken to be 64 bits wide ([IntSize]); [int64] and
      [int] values are integers of [Z] inside the 64-bit range, and the
      places where the library wraps around are written out.
    - A [float64] is a [spec_float] with the binary64 parameters.
    - A validator receives a pointer to its context and may write to it:
      the embedding passes the context in and returns the context it
      leaves behind together with the returned [error] ([None] is [nil]). *)

From Stdlib Require Import ZArith String Ascii List Bool Lia.
From Stdlib Require Import DecimalString.
From Stdlib Require Import Floats.SpecFloat.
Import ListNotations.

Local Open Scope string_scope.
Local Open Scope Z_scope.

(** ** Package strconv (base 10 only, as every call site passes it) *)

Module strconv.

Inductive NumError := ErrSyntax | ErrRange.

Definition IntSize : Z := 64.

Definition byte_val (c : ascii) : Z := Z.of_N (N_of_ascii c).

Definition uint64 (n : Z) : Z := n mod 2 ^ 64.
Definition int64 (n : Z) : Z := (n + 2 ^ 63) mod 2 ^ 64 - 2 ^ 63.

Definition maxUint64 : Z := 2 ^ 64 - 1.

(** [lower(c)] of the library: [c | ('x' - 'X')]. *)
Definition lower (c : Z) : Z := Z.lor c 32.

(** The digit switch of [ParseUint]: the value of a byte as a digit, in
    any base up to 36, or [None] for a byte that is no digit at all. *)
Definition digit_of (c : Z) : option Z :=
  if (48 <=? c) && (c <=? 57) then Some (c - 48)
  else if (97 <=? lower c) && (lower c <=? 122) then Some (lower c - 97 + 10)
  else None.

(** The loop of [ParseUint(s, 10, bitSize)] over the bytes of [s],
    with [n] the number read so far. *)
Fixpoint ParseUint_loop (maxVal : Z) (s : string) (n : Z) : Z * option NumError :=
  match s with
  | EmptyString => (n, None)
  | String ch rest =>
      match digit_of (byte_val ch) with
      | None => (0, Some ErrSyntax)
      | Some d =>
          if 10 <=? d then (0, Some ErrSyntax)
          else if maxUint64 / 10 + 1 <=? n then (maxVal, Some ErrRange)
          else
            let n10 := uint64 (n * 10) in
            let n1 := uint64 (n10 + d) in
            if (n1 <? n10) || (maxVal <? n1) then (maxVal, Some ErrRange)
            else ParseUint_loop maxVal rest n1
      end
  end.

Definition bits (bitSize : Z) : Z := if bitSize =? 0 then IntSize else bitSize.

Definition ParseUint (s : string) (bitSize : Z) : Z * option NumError :=
  match s with
  | EmptyString => (0, Some ErrSyntax)
  | _ => ParseUint_loop (2 ^ bits bitSize - 1) s 0
  end.

(** [ParseInt(s, 10, bitSize)]. *)
Definition ParseInt (s : string) (bitSize : Z) : Z * option NumError :=
  match s with
  | EmptyString => (0, Some ErrSyntax)
  | String c0 rest =>
      let neg := byte_val c0 =? 45 in
      let s' := if (byte_val c0 =? 43) || neg then rest else s in
      match ParseUint s' bitSize with
      | (_, Some ErrSyntax) => (0, Some ErrSyntax)
      | (un, _) =>
          let cutoff := 2 ^ (bits bitSize - 1) in
          if negb neg && (cutoff <=? un) then (int64 (cutoff - 1), Some ErrRange)
          else if neg && (cutoff <? un) then (int64 (- int64 cutoff), Some ErrRange)
          else
            let n := int64 un in
            (if neg then int64 (- n) else n, None)
      end
  end.

(** [Atoi(s)] is [ParseInt(s, 10, 0)] converted to [int]. *)
Definition Atoi (s : string) : Z * option NumError := ParseInt s 0.

(** [Itoa(i)]: the decimal text of [i], with a leading minus sign for a
    negative number. *)
Definition Itoa (i : Z) : string := NilZero.string_of_int (Z.to_int i).

End strconv.

(** ** Package unicode/utf8 *)

Module utf8.

Definition RuneError : Z := 65533.

(** The table [first] of the library, by range: what the first byte of
    a sequence announces. *)
Inductive firstInfo :=
| ASCII
| Invalid
| Lead (size : nat) (lo hi : Z).

Definition first (b : Z) : firstInfo :=
  if b <? 128 then ASCII
  else if b <? 194 then Invalid
  else if b <? 224 then Lead 2 128 191
  else if b =? 224 then Lead 3 160 191
  else if b <? 237 then Lead 3 128 191
  else if b =? 237 then Lead 3 128 159
  else if b <? 240 then Lead 3 128 191
  else if b =? 240 then Lead 4 144 191
  else if b <? 244 then Lead 4 128 191
  else if b =? 244 then Lead 4 128 143
  else Invalid.

Definition cont (b : Z) : bool := (128 <=? b) && (b <=? 191).

(** [DecodeRuneInString(s)]: the first rune of [s] and its width in
    bytes; an ill-formed sequence decodes as [RuneError] of width 1. *)
Definition DecodeRuneInString (s : string) : Z * nat :=
  match s with
  | EmptyString => (RuneError, 0%nat)
  | String c0 t0 =>
      let s0 := strconv.byte_val c0 in
      match first s0 with
      | ASCII => (s0, 1%nat)
      | Invalid => (RuneError, 1%nat)
      | Lead sz lo hi =>
          if (String.length s <? sz)%nat then (RuneError, 1%nat)
          else
            match t0 with
            | EmptyString => (RuneError, 1%nat)
            | String c1 t1 =>
                let s1 := strconv.byte_val c1 in
                if (s1 <? lo) || (hi <? s1) then (RuneError, 1%nat)
                else if (sz <=? 2)%nat then
                  (Z.lor (Z.shiftl (Z.land s0 31) 6) (Z.land s1 63), 2%nat)
                else
                  match t1 with
                  | EmptyString => (RuneError, 1%nat)
                  | String c2 t2 =>
                      let s2 := strconv.byte_val c2 in
                      if negb (cont s2) then (RuneError, 1%nat)
                      else if (sz <=? 3)%nat then
                        (Z.lor (Z.lor (Z.shiftl (Z.land s0 15) 12)
                                      (Z.shiftl (Z.land s1 63) 6))
                               (Z.land s2 63), 3%nat)
                      else
                        match t2 with
                        | EmptyString => (RuneError, 1%nat)
                        | String c3 _ =>
                            let s3 := strconv.byte_val c3 in
                            if negb (cont s3) then (RuneError, 1%nat)
                            else
                              (Z.lor (Z.lor (Z.lor (Z.shiftl (Z.land s0 7) 18)
                                                   (Z.shiftl (Z.land s1 63) 12))
                                            (Z.shiftl (Z.land s2 63) 6))
                                     (Z.land s3 63), 4%nat)
                        end
                  end
            end
      end
  end.

(** The runes a [for _, char := range s] loop visits, in order.  [skip]
    counts the bytes still covered by the rune decoded last. *)
Fixpoint range_from (skip : nat) (s : string) : list Z :=
  match s with
  | EmptyString => []
  | String _ t =>
      match skip with
      | S k => range_from k t
      | O => let (r, size) := DecodeRuneInString s in
             r :: range_from (Nat.pred size) t
      end
  end.

Definition range (s : string) : list Z := range_from 0 s.

End utf8.

(** ** Package unicode *)

Module unicode.

Definition MaxLatin1 : Z := 255.

(** The range tables [Letter], [Upper] and [Lower] of the library are
    consulted for the runes above Latin-1 only; they are data of the
    library, taken as given. *)
Class Tables := {
  Letter : Z -> bool;
  Upper : Z -> bool;
  Lower : Z -> bool
}.

(** The letter bits of the array [properties], which answers for the
    Latin-1 runes. *)
Inductive letterClass := pLu | pLl | pLo | pNoLetter.

Definition properties (b : Z) : letterClass :=
  if (65 <=? b) && (b <=? 90) then pLu
  else if (97 <=? b) && (b <=? 122) then pLl
  else if (b =? 170) || (b =? 186) then pLo
  else if b =? 181 then pLl
  else if (192 <=? b) && (b <=? 214) then pLu
  else if (216 <=? b) && (b <=? 222) then pLu
  else if (223 <=? b) && (b <=? 246) then pLl
  else if (248 <=? b) && (b <=? 255) then pLl
  else pNoLetter.

Definition latin1 (r : Z) : bool := (0 <=? r) && (r <=? MaxLatin1).

Definition IsUpper `{Tables} (r : Z) : bool :=
  if latin1 r then match properties r with pLu => true | _ => false end
  else Upper r.

Definition IsLower `{Tables} (r : Z) : bool :=
  if latin1 r then match properties r with pLl => true | _ => false end
  else Lower r.

Definition IsLetter `{Tables} (r : Z) : bool :=
  if latin1 r then match properties r with pNoLetter => false | _ => true end
  else Letter r.

End unicode.

(** ** Package strings *)

Module strings.

(** [Join(elems, sep)]. *)
Definition Join (elems : list string) (sep : string) : string :=
  String.concat sep elems.

End strings.

(** ** Package main: the validator context and the built-in validators *)

Module validators.

Export unicode.

(** The dynamic types an [interface{}] can hold, as far as the
    validators tell them apart: the three types they have a case for,
    and every other type. *)
Inductive otype :=
| OBool
| OInt
| OInt32
| OUint64
| OFloat32
| OSlice (elem : rtype)
| OPtr (elem : rtype)
| ONamed (pkg name : string)
with rtype :=
| TString
| TInt64
| TFloat64
| TOther (o : otype).

(** A value of type [interface{}].  [VOther t] is a value whose dynamic
    type is none of [string], [int64], [float64]; its contents are never
    looked at. *)
Inductive value :=
| VNil
| VString (s : string)
| VInt64 (n : Z)
| VFloat64 (f : spec_float)
| VOther (t : otype).

(** [reflect.TypeOf]: [None] is the nil [Type] of a nil interface. *)
Definition TypeOf (v : value) : option rtype :=
  match v with
  | VNil => None
  | VString _ => Some TString
  | VInt64 _ => Some TInt64
  | VFloat64 _ => Some TFloat64
  | VOther t => Some (TOther t)
  end.

Record UnsupportedTypeError := {
  Type_ : option rtype;
  Message : string
}.

(** The two kinds of [error] the validators return: [errors.New(text)]
    and [*UnsupportedTypeError]. *)
Inductive error :=
| errorString (text : string)
| unsupportedType (e : UnsupportedTypeError).

Definition Error (e : error) : string :=
  match e with
  | errorString text => text
  | unsupportedType u => Message u
  end.

Definition NewUnsupportedTypeError (validatorName : string) (v : value) : error :=
  unsupportedType {|
    Type_ := TypeOf v;
    Message := ("Validator with name '" ++ validatorName
                ++ "' on struct '{struct}' and field '{field}' is not supported.")%string
  |}.

Record ValidatorContext := {
  Value : value;
  IsNil : bool;
  StopValidate : bool
}.

(** Modelled from the spec: the type [NormalizedValue] is declared
    outside the files at hand; the constructor below reads its fields
    [Value] and [IsNil]. *)
Record NormalizedValue := {
  NormalizedValue_Value : value;
  NormalizedValue_IsNil : bool
}.

Definition NewValidatorContext (normalizedValue : NormalizedValue) : ValidatorContext :=
  {| Value := NormalizedValue_Value normalizedValue;
     IsNil := NormalizedValue_IsNil normalizedValue;
     StopValidate := false |}.

(** The two writes the validators make to the context. *)
Definition set_StopValidate (c : ValidatorContext) (b : bool) : ValidatorContext :=
  {| Value := Value c; IsNil := IsNil c; StopValidate := b |}.

Definition set_Value (c : ValidatorContext) (v : value) : ValidatorContext :=
  {| Value := v; IsNil := IsNil c; StopValidate := StopValidate c |}.

(** What a call leaves behind: the context after the call and the
    returned error. *)
Definition outcome : Type := ValidatorContext * option error.

Definition ValidatorFilter : Type := ValidatorContext -> list string -> outcome.

Definition len (s : string) : Z := Z.of_nat (String.length s).

(** [float64(i)] for an [int] [i]: rounding to the nearest binary64. *)
Definition float64_of_int (i : Z) : spec_float := binary_normalize 53 1024 i 0 false.

Definition float64_zero : spec_float := S754_zero false.

Definition IsEmpty : ValidatorFilter := fun context options =>
  if (0 <? length options)%nat then
    (context, Some (errorString "Validator 'empty' does not support any arguments."))
  else
    match Value context with
    | VString typedValue =>
        if IsNil context || (len typedValue =? 0)
        then (set_StopValidate context true, None)
        else (context, None)
    | VInt64 typedValue =>
        if IsNil context || (typedValue =? 0)
        then (set_StopValidate context true, None)
        else (context, None)
    | _ =>
        if IsNil context
        then (set_StopValidate context true, None)
        else (context, Some (NewUnsupportedTypeError "empty" (Value context)))
    end.

Definition IsNotEmpty : ValidatorFilter := fun context options =>
  if (0 <? length options)%nat then
    (context, Some (errorString "Validator 'not_empty' does not support any arguments."))
  else
    match Value context with
    | VString typedValue =>
        if IsNil context || (len typedValue =? 0)
        then (context, Some (errorString "{field} cannot be empty."))
        else (context, None)
    | VInt64 typedValue =>
        if IsNil context || (typedValue =? 0)
        then (context, Some (errorString "{field} cannot be empty."))
        else (context, None)
    | VFloat64 typedValue =>
        if IsNil context || SFeqb typedValue float64_zero
        then (context, Some (errorString "{field} cannot be empty."))
        else (context, None)
    | _ =>
        if IsNil context
        then (context, Some (errorString "{field} cannot be empty."))
        else (context, Some (NewUnsupportedTypeError "not_empty" (Value context)))
    end.

Definition IsMin : ValidatorFilter := fun context options =>
  match options with
  | [option0] =>
      match strconv.Atoi option0 with
      | (_, Some _) =>
          (context, Some (errorString "Unable to parse 'min' validator value."))
      | (minValue, None) =>
          match Value context with
          | VString typedValue =>
              if IsNil context || (len typedValue <? minValue)
              then (context, Some (errorString
                     ("{field} cannot be shorter than " ++ strconv.Itoa minValue
                      ++ " characters.")%string))
              else (context, None)
          | VInt64 typedValue =>
              if IsNil context || (typedValue <? strconv.int64 minValue)
              then (context, Some (errorString
                     ("{field} cannot be less than " ++ strconv.Itoa minValue ++ ".")%string))
              else (context, None)
          | VFloat64 typedValue =>
              if IsNil context || SFltb typedValue (float64_of_int minValue)
              then (context, Some (errorString
                     ("{field} cannot be less than " ++ strconv.Itoa minValue ++ ".")%string))
              else (context, None)
          | _ => (context, Some (NewUnsupportedTypeError "min" (Value context)))
          end
      end
  | _ => (context, Some (errorString "Validator 'min' requires a single argument."))
  end.

Definition IsMax : ValidatorFilter := fun context options =>
  match options with
  | [option0] =>
      match strconv.Atoi option0 with
      | (_, Some _) =>
          (context, Some (errorString "Unable to parse 'max' validator value."))
      | (minValue, None) =>
          match Value context with
          | VString typedValue =>
              if negb (IsNil context) && (minValue <? len typedValue)
              then (context, Some (errorString
                     ("{field} is longer than " ++ strconv.Itoa minValue
                      ++ " characters.")%string))
              else (context, None)
          | VInt64 typedValue =>
              if negb (IsNil context) && (strconv.int64 minValue <? typedValue)
              then (context, Some (errorString
                     ("{field} cannot be greater than " ++ strconv.Itoa minValue ++ ".")%string))
              else (context, None)
          | VFloat64 typedValue =>
              if negb (IsNil context) && SFltb (float64_of_int minValue) typedValue
              then (context, Some (errorString
                     ("{field} cannot be greater than " ++ strconv.Itoa minValue ++ ".")%string))
              else (context, None)
          | _ => (context, Some (NewUnsupportedTypeError "max" (Value context)))
          end
      end
  | _ => (context, Some (errorString "Validator 'max' requires a single argument."))
  end.

Section Case.

Context `{Tables}.

(** The loop of IsLowerCase over the runes of the string: the first
    letter that is not lower case ends it with the error. *)
Fixpoint lowercase_loop (chars : list Z) : option error :=
  match chars with
  | [] => None
  | char :: rest =>
      if IsLetter char && negb (IsLower char)
      then Some (errorString "{field} must be in lower case.")
      else lowercase_loop rest
  end.

Fixpoint uppercase_loop (chars : list Z) : option error :=
  match chars with
  | [] => None
  | char :: rest =>
      if IsLetter char && negb (IsUpper char)
      then Some (errorString "{field} must be in upper case.")
      else uppercase_loop rest
  end.

Definition IsLowerCase : ValidatorFilter := fun context options =>
  if (0 <? length options)%nat then
    (context, Some (errorString "Validator 'lowercase' does not support any arguments."))
  else
    match Value context with
    | VString typedValue =>
        if IsNil context || (len typedValue =? 0) then (context, None)
        else (context, lowercase_loop (utf8.range typedValue))
    | _ => (context, Some (NewUnsupportedTypeError "lowercase" (Value context)))
    end.

Definition IsUpperCase : ValidatorFilter := fun context options =>
  if (0 <? length options)%nat then
    (context, Some (errorString "Validator 'uppercase' does not support any arguments."))
  else
    match Value context with
    | VString typedValue =>
        if IsNil context || (len typedValue =? 0) then (context, None)
        else (context, uppercase_loop (utf8.range typedValue))
    | _ => (context, Some (NewUnsupportedTypeError "uppercase" (Value context)))
    end.

End Case.

Definition IsNumeric : ValidatorFilter := fun context options =>
  if (0 <? length options)%nat then
    (context, Some (errorString "Validator 'numeric' does not support any arguments."))
  else
    match Value context with
    | VString typedValue =>
        if IsNil context || (len typedValue =? 0)
        then (context, Some (errorString "{field} must be numeric."))
        else
          match strconv.ParseInt typedValue 32 with
          | (_, Some _) =>
              (context, Some (errorString "{field} must contain numbers only."))
          | (value, None) => (set_Value context (VInt64 value), None)
          end
    | _ => (context, Some (NewUnsupportedTypeError "numeric" (Value context)))
    end.

(** The registrations of registerDefaultValidators, in order: the name
    each built-in validator is registered under. *)
Definition registerDefaultValidators `{Tables} : list (string * ValidatorFilter) :=
  [ ("empty", IsEmpty);
    ("not_empty", IsNotEmpty);
    ("min", IsMin);
    ("max", IsMax);
    ("lowercase", IsLowerCase);
    ("uppercase", IsUpperCase);
    ("numeric", IsNumeric) ].

End validators.

(** ** Package core: reflection helpers *)

Module core.

(** A call either returns or panics. *)
Inductive returns (A : Type) :=
| Return (a : A)
| Panic.
Arguments Return {A} a.
Arguments Panic {A}.

Definition bind {A B} (r : returns A) (k : A -> returns B) : returns B :=
  match r with
  | Return a => k a
  | Panic => Panic
  end.

Notation "x <- r ;; k" := (bind r (fun x => k))
  (at level 61, r at next level, right associativity).

Section Reflection.

Context `{unicode.Tables}.

(** The values of type [interface{}] and the [reflect.Type]s they are
    told apart by are those of the program at hand. *)
Variable any : Type.
Variable rtype : Type.
Variable TypeOf : any -> option rtype.
Variable rtype_eqb : rtype -> rtype -> bool.
Variable isInterface : rtype -> bool.

(** [TagGroup] and [parseTag] are declared in a file of the package
    that is not at hand; [parseTag] returns the groups and an error. *)
Variable TagGroup : Type.
Variable tagError : Type.
Variable parseTag : string -> list TagGroup * option tagError.

(** [reflect.StructTag.Get]: the value the tag text gives for a key. *)
Variable StructTag_Get : string -> string -> string.

(** A field descriptor.  [Parent] is a pointer in the code; here the
    chain of parents is a finite one, as it is for every descriptor that
    is built from descriptors built before it. *)
#[warnings="-register-all"]
Inductive ReflectedField := {
  Parent : option ReflectedField;
  Name : string;
  Value : any;
  TagGroups : list TagGroup
}.

(** The loop of FullName, entered with a parent that is not nil: one
    turn for [parent], then on to its own parent. *)
Fixpoint FullName_climb (parent : ReflectedField) (fullName : string) : string :=
  let fullName :=
    if (0 <? String.length (Name parent))%nat
    then (Name parent ++ "." ++ fullName)%string
    else fullName in
  match Parent parent with
  | None => fullName
  | Some p => FullName_climb p fullName
  end.

(** [for parent != nil { ... }]. *)
Definition FullName_loop (parent : option ReflectedField) (fullName : string) : string :=
  match parent with
  | None => fullName
  | Some p => FullName_climb p fullName
  end.

Definition FullName (this : ReflectedField) (postfix : list string) : string :=
  let fullName := FullName_loop (Parent this) (Name this) in
  if (0 <? length postfix)%nat then
    ((if (0 <? String.length fullName)%nat then fullName ++ "." else fullName)
     ++ strings.Join postfix ".")%string
  else fullName.

(** *** GetStructFields *)

(** [reflect.StructField], as far as it is read.  [PkgPath] is empty
    for an exported field and names the package otherwise. *)
Record StructField := {
  StructField_Name : string;
  StructField_PkgPath : string;
  StructField_Tag : string
}.

(** What can be passed for [value]: a struct, a pointer to a struct
    (possibly nil), or something else; a struct comes with the value
    of each of its fields. *)
Inductive structArg :=
| NilInterface
| NotStruct
| ByValue (fields : list (StructField * any))
| ByPointer (fields : list (StructField * any))
| NilPointer (fields : list StructField).

(** [reflectValue], and then [valueType.Field(i)] next to
    [reflectedValue.Field(i)] for every [i]: [reflect.ValueOf(nil).Type()]
    and [NumField] of a type that is no struct panic; behind a nil
    pointer there is the type of the fields and no value. *)
Definition reflectValue (value : structArg)
  : returns (list (StructField * option any)) :=
  match value with
  | NilInterface => Panic
  | NotStruct => Panic
  | ByValue fields | ByPointer fields =>
      Return (map (fun fv => (fst fv, Some (snd fv))) fields)
  | NilPointer fields => Return (map (fun f => (f, None)) fields)
  end.

(** [reflectedValue.Field(i).Interface()]: [Field] panics on the zero
    Value, [Interface] on a value obtained from an unexported field. *)
Definition Field_Interface (field : StructField) (v : option any) : returns any :=
  match v with
  | None => Panic
  | Some x =>
      if (0 <? String.length (StructField_PkgPath field))%nat then Panic
      else Return x
  end.

(** [unicode.IsUpper(rune(field.Name[0]))]; indexing an empty name
    panics. *)
Definition firstByteIsUpper (name : string) : returns bool :=
  match name with
  | EmptyString => Panic
  | String c _ => Return (unicode.IsUpper (strconv.byte_val c))
  end.

(** The loop of GetStructFields over the fields that are left, with
    [fields] the descriptors appended so far. *)
Fixpoint GetStructFields_loop (tagName : string)
    (rest : list (StructField * option any)) (fields : list ReflectedField)
  : returns (list ReflectedField * option tagError) :=
  match rest with
  | [] => Return (fields, None)
  | (field, v) :: rest' =>
      upper <- firstByteIsUpper (StructField_Name field) ;;
      if upper : bool then
        let tagValue := StructTag_Get (StructField_Tag field) tagName in
        match parseTag tagValue with
        | (_, Some err) => Return ([], Some err)
        | (tagGroups, None) =>
            x <- Field_Interface field v ;;
            let reflectedField :=
              {| Parent := None;
                 Name := StructField_Name field;
                 Value := x;
                 TagGroups := tagGroups |} in
            GetStructFields_loop tagName rest' (fields ++ [reflectedField])
        end
      else GetStructFields_loop tagName rest' fields
  end.

Definition GetStructFields (value : structArg) (tagName : string)
  : returns (list ReflectedField * option tagError) :=
  all <- reflectValue value ;;
  GetStructFields_loop tagName all [].

(** The language's rule for an exported name: its first character, a
    rune, is an upper-case letter. *)
Definition exported (name : string) : bool :=
  unicode.IsUpper (fst (utf8.DecodeRuneInString name)).

(** A struct field as the compiler and [reflect] hand it over: the
    name is not empty and [PkgPath] is empty exactly for an exported
    name. *)
Definition wf_field (field : StructField) : Prop :=
  StructField_Name field <> EmptyString /\
  (StructField_PkgPath field = EmptyString <->
   exported (StructField_Name field) = true).

(** *** CallDynamicMethod *)

Inductive callError :=
| InvalidMethodError
| InputParameterMismatchError
| UnhandledCallError.

Definition callError_text (e : callError) : string :=
  match e with
  | InvalidMethodError => "Method does not exist."
  | InputParameterMismatchError =>
      "Arguments does not match those of target function."
  | UnhandledCallError => "Unhandled function call error."
  end.

(** The receiver a method value is bound to: the value itself or a
    pointer to it. *)
Inductive form := ViaValue | ViaPointer.

(** A method of a type: its name, the types of its parameters (the
    receiver apart) and what a call does with the receiver bound. *)
Record Method := {
  Method_Name : string;
  Method_In : list rtype;
  Method_Call : form -> list any -> returns (list any)
}.

(** A defined type that is neither a pointer nor an interface, with
    its exported methods by kind of receiver. *)
Record DefinedType := {
  valueReceiver : list Method;
  pointerReceiver : list Method
}.

Inductive GoType :=
| Defined (d : DefinedType)
| PtrTo (elem : GoType)
| Interface (methods : list Method).

(** The method set [reflect] lists for a type: a defined type has its
    value-receiver methods, a pointer to it has those and the
    pointer-receiver ones, an interface has its own, and a pointer to
    a pointer or to an interface has none. *)
Definition methodSet (t : GoType) : list Method :=
  match t with
  | Defined d => valueReceiver d
  | PtrTo (Defined d) => valueReceiver d ++ pointerReceiver d
  | PtrTo _ => []
  | Interface methods => methods
  end.

(** A [reflect.Value]: the zero Value, or a value of a type; for a
    value of interface kind, whether the interface is nil. *)
Inductive rvalue :=
| Zero
| Val (t : GoType) (nilInterface : bool).

(** [v.MethodByName(name)]: panics on the zero Value and on a method
    of a nil interface; [None] is the invalid Value of a name that
    does not resolve. *)
Definition MethodByName (v : rvalue) (name : string) : returns (option Method) :=
  match v with
  | Zero => Panic
  | Val t nilInterface =>
      match find (fun m => String.eqb (Method_Name m) name) (methodSet t) with
      | None => Return None
      | Some m =>
          match t with
          | Interface _ => if nilInterface then Panic else Return (Some m)
          | _ => Return (Some m)
          end
      end
  end.

Inductive pointee :=
| NilPtr
| Pointee (nilInterface : bool).

(** What can be passed for [i]: the nil interface, a value that is no
    pointer (its type is a defined one), or a pointer. *)
Inductive target :=
| TNil
| TValue (d : DefinedType)
| TPointer (elem : GoType) (p : pointee).

(** The first lines of CallDynamicMethod: [value] and [ptr]. *)
Definition value_and_ptr (i : target) : returns (rvalue * rvalue) :=
  match i with
  | TNil => Panic
  | TPointer elem p =>
      let ptr := Val (PtrTo elem) false in
      let value := match p with
                   | NilPtr => Zero
                   | Pointee b => Val elem b
                   end in
      Return (value, ptr)
  | TValue d => Return (Val (Defined d) false, Val (PtrTo (Defined d)) false)
  end.

Definition sameType (t : option rtype) (inputType : rtype) : bool :=
  match t with
  | None => false
  | Some t' => rtype_eqb t' inputType
  end.

(** The loop over the parameters: [true] when an argument's type
    differs from that of a parameter that is no interface. *)
Fixpoint mismatch (ins : list rtype) (args : list any) : bool :=
  match ins, args with
  | inputType :: ins', arg :: args' =>
      if negb (isInterface inputType) && negb (sameType (TypeOf arg) inputType)
      then true
      else mismatch ins' args'
  | _, _ => false
  end.

Definition CallDynamicMethod (i : target) (methodName : string) (args : list any)
  : returns (list any * option callError) :=
  vp <- value_and_ptr i ;;
  let value := fst vp in
  let ptr := snd vp in
  let finalMethod : option (form * Method) := None in
  method <- MethodByName value methodName ;;
  let finalMethod :=
    match method with
    | Some m => Some (ViaValue, m)
    | None => finalMethod
    end in
  method <- MethodByName ptr methodName ;;
  match method with
  | None => Return ([], Some InvalidMethodError)
  | Some m =>
      let finalMethod := Some (ViaPointer, m) in
      match finalMethod with
      | Some (recv, fm) =>
          let numParameters := length (Method_In fm) in
          if negb (length args =? numParameters)%nat
          then Return ([], Some InputParameterMismatchError)
          else if mismatch (Method_In fm) args
          then Return ([], Some InputParameterMismatchError)
          else
            callResult <- Method_Call fm recv args ;;
            Return (callResult, None)
      | None => Return ([], Some UnhandledCallError)
      end
  end.

(** Whether [methodName] resolves on a form of the target. *)
Definition resolves (v : rvalue) (methodName : string) : Prop :=
  exists m, MethodByName v methodName = Return (Some m).

End Reflection.

Arguments Build_ReflectedField {any TagGroup}.
Arguments Parent {any TagGroup}.
Arguments Name {any TagGroup}.
Arguments Value {any TagGroup}.
Arguments TagGroups {any TagGroup}.
Arguments FullName_climb {any TagGroup}.
Arguments FullName_loop {any TagGroup}.
Arguments FullName {any TagGroup}.
Arguments reflectValue {any}.
Arguments Field_Interface {any}.
Arguments NilInterface {any}.
Arguments NotStruct {any}.
Arguments ByValue {any}.
Arguments ByPointer {any}.
Arguments NilPointer {any}.
Arguments GetStructFields_loop {_ any TagGroup tagError}.
Arguments GetStructFields {_ any TagGroup tagError}.
Arguments Method_Name {any rtype}.
Arguments Method_In {any rtype}.
Arguments Method_Call {any rtype}.
Arguments valueReceiver {any rtype}.
Arguments pointerReceiver {any rtype}.
Arguments Defined {any rtype}.
Arguments PtrTo {any rtype}.
Arguments Interface {any rtype}.
Arguments methodSet {any rtype}.
Arguments Zero {any rtype}.
Arguments Val {any rtype}.
Arguments MethodByName {any rtype}.
Arguments TNil {any rtype}.
Arguments TValue {any rtype}.
Arguments TPointer {any rtype}.
Arguments value_and_ptr {any rtype}.
Arguments mismatch {any rtype}.
Arguments CallDynamicMethod {any rtype}.
Arguments resolves {any rtype}.

End core.

(** * Data for the examples *)

Module fixtures.

Import core.

(** Tables that list no rune above Latin-1. *)
Definition latin1Tables : unicode.Tables :=
  {| unicode.Letter := fun _ => false;
     unicode.Upper := fun _ => false;
     unicode.Lower := fun _ => false |}.

(** A tag parser that makes one group of the whole tag text and
    rejects the text "?". *)
Definition parseTag (tag : string) : list string * option string :=
  if String.eqb tag "?" then ([], Some "unknown directive") else ([tag], None).

(** A tag text that gives itself for every key. *)
Definition StructTag_Get (tag key : string) : string := tag.

(** The bytes C3 B1 61 6D 65: the name "ñame" in UTF-8, its first
    character U+00F1, a lower-case letter. *)
Definition name_n_tilde : string :=
  String (ascii_of_nat 195) (String (ascii_of_nat 177) "ame").

(** A program whose values are texts, all of one type. *)
Definition TypeOf (v : string) : option unit := Some tt.
Definition rtype_eqb (a b : unit) : bool := true.
Definition isInterface (t : unit) : bool := false.

(** A method "Hello" without parameters that tells the receiver it was
    called with. *)
Definition Hello : Method string unit :=
  {| Method_Name := "Hello";
     Method_In := [];
     Method_Call := fun recv _ =>
       Return [match recv with
               | ViaValue => "value receiver"
               | ViaPointer => "pointer receiver"
               end] |}.

(** A defined type [Greeter] with [Hello] declared on the pointer. *)
Definition Greeter : DefinedType string unit :=
  {| valueReceiver := []; pointerReceiver := [Hello] |}.

(** A defined type [Plain] with [Hello] declared on the value. *)
Definition Plain : DefinedType string unit :=
  {| valueReceiver := [Hello]; pointerReceiver := [] |}.

End fixtures.

(** * Vocabulary of the statements about strconv *)

Module strconv_props.

Import strconv.

Definition isDigit (c : ascii) : bool :=
  (48 <=? byte_val c) && (byte_val c <=? 57).

Fixpoint allDigits (s : string) : bool :=
  match s with
  | EmptyString => true
  | String c rest => isDigit c && allDigits rest
  end.

(** The number a row of decimal digits denotes, read after [acc]. *)
Fixpoint digitsValue (s : string) (acc : Z) : Z :=
  match s with
  | EmptyString => acc
  | String c rest => digitsValue rest (acc * 10 + (byte_val c - 48))
  end.

Definition unsigned (s : string) : option Z :=
  match s with
  | EmptyString => None
  | _ => if allDigits s then Some (digitsValue s 0) else None
  end.

(** The integer a decimal numeral denotes: an optional sign, then one
    digit or more; [None] for any other text. *)
Definition decimal (s : string) : option Z :=
  match s with
  | EmptyString => None
  | String c rest =>
      if byte_val c =? 43 then unsigned rest
      else if byte_val c =? 45 then option_map Z.opp (unsigned rest)
      else unsigned s
  end.

End strconv_props.

(** * Vocabulary of the statements about the validators *)

Module validators_props.

Import validators.

(** The number of options a built-in validator takes, by the name it is
    registered under, and the error it returns for any other number. *)
Definition takesOne (name : string) : bool :=
  String.eqb name "min" || String.eqb name "max".

Definition wrongArity (name : string) (options : list string) : Prop :=
  if takesOne name then length options <> 1%nat else options <> [].

Definition arityError (name : string) : error :=
  errorString
    (if takesOne name
     then "Validator '" ++ name ++ "' requires a single argument."
     else "Validator '" ++ name ++ "' does not support any arguments.")%string.

Definition formatError (name : string) : error :=
  errorString ("Unable to parse '" ++ name ++ "' validator value.")%string.

(** The types IsMin and IsMax have a case for. *)
Definition supported (v : value) : Prop :=
  match v with
  | VString _ | VInt64 _ | VFloat64 _ => True
  | _ => False
  end.

(** The errors IsMin returns for a value below the threshold. *)
Definition tooSmall (minValue : Z) (e : error) : Prop :=
  e = errorString ("{field} cannot be shorter than " ++ strconv.Itoa minValue
                   ++ " characters.")%string
  \/ e = errorString ("{field} cannot be less than " ++ strconv.Itoa minValue ++ ".")%string.

Definition unsupportedMessage (name : string) : string :=
  ("Validator with name '" ++ name
   ++ "' on struct '{struct}' and field '{field}' is not supported.")%string.

(** An option that [strconv.Atoi] reads as an integer. *)
Definition parsesAs (option0 : string) (n : Z) : Prop :=
  strconv.Atoi option0 = (n, None).

Definition unparsable (option0 : string) : Prop :=
  snd (strconv.Atoi option0) <> None.

End validators_props.

(** * Vocabulary of the statements about package core *)

Module core_props.

Import core.

Section Names.

Variable any : Type.
Variable TagGroup : Type.

Local Abbreviation ReflectedField := (ReflectedField any TagGroup).

(** The names along the chain of parents that ends in [p], the
    outermost first and [p]'s own last. *)
Fixpoint chain (p : ReflectedField) : list string :=
  match Parent p with
  | None => [Name p]
  | Some q => chain q ++ [Name p]
  end.

(** The names of the ancestors of a field, the outermost first. *)
Definition ancestors (this : ReflectedField) : list string :=
  match Parent this with
  | None => []
  | Some p => chain p
  end.

Definition nonEmpty (names : list string) : list string :=
  filter (fun name => (0 <? String.length name)%nat) names.

Definition dotted (segments : list string) : string := strings.Join segments ".".

(** What the loop of FullName does with the names of a chain: each is
    put in front, with a dot. *)
Definition prepend (names : list string) (fullName : string) : string :=
  fold_right (fun name rest => (name ++ "." ++ rest)%string) fullName names.

(** A field without a name of its own and without a named ancestor. *)
Definition bare (this : ReflectedField) : bool :=
  match nonEmpty (ancestors this) with
  | [] => String.eqb (Name this) ""
  | _ :: _ => false
  end.

(** The segments of the full name: the ancestors' names that are not
    empty, the field's own name, the postfix. *)
Definition segments (this : ReflectedField) (postfix : list string) : list string :=
  nonEmpty (ancestors this) ++ [Name this] ++ postfix.

End Names.

Arguments chain {any TagGroup}.
Arguments ancestors {any TagGroup}.
Arguments segments {any TagGroup}.
Arguments bare {any TagGroup}.

Section Walk.

Context `{unicode.Tables}.
Variable any : Type.
Variable TagGroup : Type.
Variable tagError : Type.
Variable parseTag : string -> list TagGroup * option tagError.
Variable StructTag_Get : string -> string -> string.

(** The descriptor GetStructFields makes of a field. *)
Definition describe (field : StructField) (v : any) (tagGroups : list TagGroup)
  : ReflectedField any TagGroup :=
  {| Parent := None;
     Name := StructField_Name field;
     Value := v;
     TagGroups := tagGroups |}.

(** The walk in the words of the specification: a descriptor for
    every field whose name begins with an upper-case character, in
    the order of declaration, the other fields skipped; the first
    tag of such a field that does not parse gives the error and no
    descriptor at all. *)
Fixpoint walk (tagName : string) (fields : list (StructField * any))
  : list (ReflectedField any TagGroup) * option tagError :=
  match fields with
  | [] => ([], None)
  | (field, v) :: rest =>
      if exported (StructField_Name field) then
        match parseTag (StructTag_Get (StructField_Tag field) tagName) with
        | (_, Some err) => ([], Some err)
        | (tagGroups, None) =>
            match walk tagName rest with
            | (fields', None) => (describe field v tagGroups :: fields', None)
            | (_, Some err) => ([], Some err)
            end
        end
      else walk tagName rest
  end.

(** A name whose first byte is an ASCII character. *)
Definition asciiInitial (name : string) : bool :=
  match name with
  | EmptyString => false
  | String c _ => strconv.byte_val c <? 128
  end.

(** The fields of a struct as the compiler makes them, with names
    that begin with an ASCII character. *)
Definition plainFields (fields : list (StructField * any)) : Prop :=
  Forall (fun fv => wf_field (fst fv)
                    /\ asciiInitial (StructField_Name (fst fv)) = true) fields.

End Walk.

Arguments describe {any TagGroup}.
Arguments walk {_ any TagGroup tagError}.
Arguments plainFields {_ any}.

End core_props.

(** * Vocabulary of the further statements *)

Module more_props.

Import validators core.

(** What IsMin and IsMax compare with their threshold: the length of a
    string in bytes, an int64 itself. *)
Definition measure (v : value) : option Z :=
  match v with
  | VString s => Some (len s)
  | VInt64 n => Some n
  | _ => None
  end.

(** The bytes of a string. *)
Fixpoint bytes (s : string) : list Z :=
  match s with
  | EmptyString => []
  | String c rest => strconv.byte_val c :: bytes rest
  end.

Definition allAscii (s : string) : bool :=
  forallb (fun b => b <? 128) (bytes s).

Definition asciiUpper (b : Z) : bool := (65 <=? b) && (b <=? 90).
Definition asciiLower (b : Z) : bool := (97 <=? b) && (b <=? 122).

(** The unsupported-type error of a validator for a value of a type. *)
Definition unsupported (name : string) (t : option rtype) : error :=
  unsupportedType {| Type_ := t; Message := validators_props.unsupportedMessage name |}.

Section Walk.

Context `{unicode.Tables}.
Variable any : Type.
Variable TagGroup : Type.
Variable tagError : Type.
Variable parseTag : string -> list TagGroup * option tagError.
Variable StructTag_Get : string -> string -> string.

(** The fields GetStructFields takes up: those whose name has an
    upper-case first byte. *)
Definition takenUp (field : StructField) : bool :=
  match firstByteIsUpper (StructField_Name field) with
  | Return b => b
  | Panic => false
  end.

(** The descriptor of a field with the groups its tag parses to. *)
Definition descriptor (tagName : string) (fv : StructField * any)
  : ReflectedField any TagGroup :=
  {| Parent := None;
     Name := StructField_Name (fst fv);
     Value := snd fv;
     TagGroups := fst (parseTag (StructTag_Get (StructField_Tag (fst fv)) tagName)) |}.

(** What a field that is taken up must be like for the walk to go on:
    exported, with a tag that parses. *)
Definition readable (tagName : string) (fv : StructField * any) : Prop :=
  takenUp (fst fv) = true ->
  StructField_PkgPath (fst fv) = ""
  /\ snd (parseTag (StructTag_Get (StructField_Tag (fst fv)) tagName)) = None.

End Walk.

Arguments takenUp {_}.
Arguments descriptor {any TagGroup tagError}.
Arguments readable {_ any TagGroup tagError}.

Section Call.

Variable any : Type.
Variable rtype : Type.
Variable TypeOf : any -> option rtype.
Variable rtype_eqb : rtype -> rtype -> bool.
Variable isInterface : rtype -> bool.

(** An argument a parameter of type [inputType] lets through: any
    argument for a parameter of interface kind, an argument of exactly
    that type otherwise. *)
Definition accepts (inputType : rtype) (arg : any) : Prop :=
  isInterface inputType = true
  \/ exists t, TypeOf arg = Some t /\ rtype_eqb t inputType = true.

End Call.

Arguments accepts {any rtype}.

End more_props.

(** * Properties of strconv: what ParseInt and Atoi accept *)

Module strconv_spec.

Import strconv strconv_props.

Lemma digit_of_digit c :
  isDigit c = true -> digit_of (byte_val c) = Some (byte_val c - 48).
Proof. unfold isDigit, digit_of. intros ->. reflexivity. Qed.

Lemma digit_of_other c :
  isDigit c = false ->
  digit_of (byte_val c) = None \/ exists d, digit_of (byte_val c) = Some d /\ 10 <= d.
Proof.
  unfold isDigit, digit_of. intros ->.
  destruct ((97 <=? lower (byte_val c)) && (lower (byte_val c) <=? 122)) eqn:E.
  - right. eexists. split; [reflexivity |]. apply andb_prop in E. lia.
  - left. reflexivity.
Qed.

Lemma isDigit_range c : isDigit c = true -> 0 <= byte_val c - 48 <= 9.
Proof. unfold isDigit. intros E. apply andb_prop in E. lia. Qed.

Lemma digitsValue_ge s : forall acc,
  allDigits s = true -> 0 <= acc -> acc <= digitsValue s acc.
Proof.
  induction s as [| c rest IH]; simpl; intros acc Hd Hacc; [lia |].
  apply andb_prop in Hd as [Hc Hrest]. pose proof (isDigit_range c Hc).
  specialize (IH (acc * 10 + (byte_val c - 48)) Hrest). lia.
Qed.

(** The loop on a row of digits: the number, or the range error with
    [maxVal] once the number exceeds it. *)
Lemma ParseUint_loop_digits maxVal s : forall n,
  allDigits s = true -> 0 <= n <= maxVal -> maxVal <= maxUint64 ->
  ParseUint_loop maxVal s n =
    if digitsValue s n <=? maxVal then (digitsValue s n, None)
    else (maxVal, Some ErrRange).
Proof.
  unfold maxUint64.
  induction s as [| c rest IH]; simpl; intros n Hd Hn Hmax.
  - destruct (Z.leb_spec n maxVal); [reflexivity | lia].
  - apply andb_prop in Hd as [Hc Hrest]. pose proof (isDigit_range c Hc) as Hr.
    rewrite (digit_of_digit c Hc).
    destruct (Z.leb_spec 10 (byte_val c - 48)); [lia |].
    pose proof (digitsValue_ge rest (n * 10 + (byte_val c - 48)) Hrest) as Hge.
    unfold maxUint64.
    change (2 ^ 64 - 1) with 18446744073709551615 in *.
    change ((18446744073709551615 / 10) + 1) with 1844674407370955162.
    destruct (Z.leb_spec 1844674407370955162 n).
    + destruct (Z.leb_spec (digitsValue rest (n * 10 + (byte_val c - 48))) maxVal);
        [lia | reflexivity].
    + unfold uint64. change (2 ^ 64) with 18446744073709551616.
      rewrite (Z.mod_small (n * 10)) by lia.
      destruct (Z.ltb_spec ((n * 10 + (byte_val c - 48)) mod 18446744073709551616) (n * 10)).
      * simpl.
        assert (18446744073709551616 <= n * 10 + (byte_val c - 48)).
        { destruct (Z_lt_le_dec (n * 10 + (byte_val c - 48)) 18446744073709551616);
            [| assumption].
          rewrite Z.mod_small in * by lia. lia. }
        destruct (Z.leb_spec (digitsValue rest (n * 10 + (byte_val c - 48))) maxVal);
          [lia | reflexivity].
      * simpl.
        assert (n * 10 + (byte_val c - 48) < 18446744073709551616).
        { destruct (Z_lt_le_dec (n * 10 + (byte_val c - 48)) 18446744073709551616);
            [assumption |].
          exfalso.
          assert ((n * 10 + (byte_val c - 48)) mod 18446744073709551616
                  = n * 10 + (byte_val c - 48) - 18446744073709551616).
          { symmetry. apply Z.mod_unique with (q := 1); lia. }
          lia. }
        rewrite Z.mod_small in * by lia.
        destruct (Z.ltb_spec maxVal (n * 10 + (byte_val c - 48))).
        -- destruct (Z.leb_spec (digitsValue rest (n * 10 + (byte_val c - 48))) maxVal);
             [lia | reflexivity].
        -- apply IH; [assumption | lia | unfold maxUint64; lia].
Qed.

(** The loop on a text with a byte that is no decimal digit: an error,
    and with the range error the value is [maxVal]. *)
Lemma ParseUint_loop_other maxVal s : forall n,
  allDigits s = false ->
  exists v e, ParseUint_loop maxVal s n = (v, Some e) /\ (e = ErrRange -> v = maxVal).
Proof.
  induction s as [| c rest IH]; simpl; intros n Hd; [discriminate |].
  destruct (isDigit c) eqn:Hc; simpl in Hd.
  - rewrite (digit_of_digit c Hc). pose proof (isDigit_range c Hc).
    destruct (Z.leb_spec 10 (byte_val c - 48)); [lia |].
    match goal with |- context [if ?b then _ else _] => destruct b end;
      [exists maxVal, ErrRange; auto |].
    match goal with |- context [if ?b then _ else _] => destruct b end;
      [exists maxVal, ErrRange; auto |].
    apply IH. exact Hd.
  - destruct (digit_of_other c Hc) as [-> | [d [-> Hd10]]].
    + exists 0, ErrSyntax. split; [reflexivity | discriminate].
    + destruct (Z.leb_spec 10 d); [| lia].
      exists 0, ErrSyntax. split; [reflexivity | discriminate].
Qed.

Lemma int64_small x : - 2 ^ 63 <= x < 2 ^ 63 -> int64 x = x.
Proof.
  unfold int64. change (2 ^ 64) with (2 * 2 ^ 63). intros Hx.
  rewrite Z.mod_small; lia.
Qed.

Lemma int64_wrap : int64 (2 ^ 63) = - 2 ^ 63.
Proof. reflexivity. Qed.

(** ParseUint against the reading of an unsigned numeral. *)
Lemma ParseUint_unsigned s bitSize :
  0 < bits bitSize <= 64 ->
  match unsigned s with
  | Some u =>
      0 <= u /\
      ParseUint s bitSize =
        if u <=? 2 ^ bits bitSize - 1 then (u, None)
        else (2 ^ bits bitSize - 1, Some ErrRange)
  | None =>
      exists v e, ParseUint s bitSize = (v, Some e)
                  /\ (e = ErrRange -> v = 2 ^ bits bitSize - 1)
  end.
Proof.
  intros Hw. unfold unsigned, ParseUint.
  destruct s as [| c rest].
  - exists 0, ErrSyntax. split; [reflexivity | discriminate].
  - assert (Hpow : 2 ^ 1 <= 2 ^ bits bitSize <= 2 ^ 64).
    { split; apply Z.pow_le_mono_r; lia. }
    destruct (allDigits (String c rest)) eqn:Hd.
    + split; [apply (digitsValue_ge _ 0 Hd); lia |].
      apply ParseUint_loop_digits; [exact Hd | lia | unfold maxUint64; lia].
    + apply ParseUint_loop_other. exact Hd.
Qed.

(** What ParseInt accepts: the decimal numerals, with an optional sign,
    of the integers that fit [bits bitSize] bits; the value returned
    with a nil error is the integer the numeral denotes. *)
Theorem ParseInt_accepts s bitSize v :
  bits bitSize = 32 \/ bits bitSize = 64 ->
  ParseInt s bitSize = (v, None) <->
  decimal s = Some v /\ - 2 ^ (bits bitSize - 1) <= v <= 2 ^ (bits bitSize - 1) - 1.
Proof.
  intros Hw. unfold ParseInt, decimal.
  destruct s as [| c0 rest]; [split; [discriminate | intros [E _]; discriminate] |].
  set (neg := byte_val c0 =? 45).
  set (s' := if (byte_val c0 =? 43) || neg then rest else String c0 rest).
  assert (Hdec : (if byte_val c0 =? 43 then unsigned rest
                  else if neg then option_map Z.opp (unsigned rest)
                  else unsigned (String c0 rest))
                 = if neg then option_map Z.opp (unsigned s') else unsigned s').
  { subst s' neg. destruct (Z.eqb_spec (byte_val c0) 43) as [E |]; simpl.
    - rewrite E. reflexivity.
    - destruct (byte_val c0 =? 45); reflexivity. }
  rewrite Hdec. clearbody s' neg. clear Hdec.
  assert (Hb : 0 < bits bitSize <= 64) by lia.
  pose proof (ParseUint_unsigned s' bitSize Hb) as HU.
  assert (Hc : 2 ^ bits bitSize = 2 * 2 ^ (bits bitSize - 1)
               /\ 2 ^ 31 <= 2 ^ (bits bitSize - 1) <= 2 ^ 63).
  { destruct Hw as [-> | ->]; split; try reflexivity; simpl; lia. }
  destruct Hc as [Hc1 Hc2]. rewrite Hc1 in HU.
  set (cutoff := 2 ^ (bits bitSize - 1)) in *. clearbody cutoff.
  change (2 ^ 31) with 2147483648 in *. change (2 ^ 63) with 9223372036854775808 in *.
  destruct (unsigned s') as [u |].
  - destruct HU as [Hu ->].
    destruct (Z.leb_spec u (2 * cutoff - 1)).
    + destruct neg; cbn [negb andb option_map].
      * destruct (Z.ltb_spec cutoff u).
        -- split; [discriminate | intros [E ?]; inversion E; lia].
        -- destruct (Z.eq_dec u 9223372036854775808) as [-> | Hne].
           ++ change (int64 (- int64 9223372036854775808)) with (- 9223372036854775808).
              split.
              ** intros E. inversion E. split; [reflexivity | lia].
              ** intros [E ?]. inversion E. reflexivity.
           ++ rewrite (int64_small u) by (change (2 ^ 63) with 9223372036854775808; lia).
              rewrite (int64_small (- u)) by (change (2 ^ 63) with 9223372036854775808; lia).
              split.
              ** intros E. inversion E. split; [reflexivity | lia].
              ** intros [E ?]. inversion E. reflexivity.
      * destruct (Z.leb_spec cutoff u).
        -- split; [discriminate | intros [E ?]; inversion E; lia].
        -- rewrite (int64_small u) by (change (2 ^ 63) with 9223372036854775808; lia).
           split.
           ++ intros E. inversion E. split; [reflexivity | lia].
           ++ intros [E ?]. inversion E. reflexivity.
    + destruct neg; cbn [negb andb option_map].
      * destruct (Z.ltb_spec cutoff (2 * cutoff - 1)); [| lia].
        split; [discriminate | intros [E ?]; inversion E; lia].
      * destruct (Z.leb_spec cutoff (2 * cutoff - 1)); [| lia].
        split; [discriminate | intros [E ?]; inversion E; lia].
  - destruct HU as [x [e [-> Hrange]]].
    destruct e.
    + split; [discriminate | destruct neg; intros [E _]; discriminate].
    + rewrite (Hrange eq_refl).
      destruct neg; cbn [negb andb option_map].
      * destruct (Z.ltb_spec cutoff (2 * cutoff - 1)); [| lia].
        split; [discriminate | intros [E _]; discriminate].
      * destruct (Z.leb_spec cutoff (2 * cutoff - 1)); [| lia].
        split; [discriminate | intros [E _]; discriminate].
Qed.

(** ParseInt returns an error exactly for the texts that are no decimal
    numeral and for the numerals of integers out of range. *)
Corollary ParseInt_rejects s bitSize :
  bits bitSize = 32 \/ bits bitSize = 64 ->
  snd (ParseInt s bitSize) <> None <->
  match decimal s with
  | Some v => ~ (- 2 ^ (bits bitSize - 1) <= v <= 2 ^ (bits bitSize - 1) - 1)
  | None => True
  end.
Proof.
  intros Hw. destruct (ParseInt s bitSize) as [v [e |]] eqn:E; simpl.
  - split; [| discriminate]. intros _.
    destruct (decimal s) as [d |] eqn:Hd; [| exact I].
    intros Hr. assert (ParseInt s bitSize = (d, None)) as E'
      by (apply ParseInt_accepts; auto).
    rewrite E in E'. discriminate.
  - apply (ParseInt_accepts s bitSize v Hw) in E as [Hd Hr]. rewrite Hd.
    split; [congruence | intros Hn; contradiction].
Qed.

End strconv_spec.

(** * Properties of the built-in validators *)

Module validators_spec.

Import validators validators_props.

Ltac registered H :=
  repeat (destruct H as [H | H]; [inversion H; subst; clear H | ]);
  [ .. | contradiction ].

Ltac by_cases ctx :=
  destruct ctx as [v nil stop]; destruct v; destruct nil; simpl in *.

Ltac split_if :=
  match goal with |- context [if ?b then _ else _] => destruct b end.

(** Unfold a validator down to its type switch. *)
Ltac enter options :=
  unfold IsEmpty, IsNotEmpty, IsMin, IsMax, IsLowerCase, IsUpperCase, IsNumeric;
  try (destruct (0 <? length options)%nat; [reflexivity |]);
  try (destruct options as [| ?o [|]]; try reflexivity;
       destruct (strconv.Atoi o) as [?m [?e |]]; [reflexivity |]).

(** C2. IsEmpty without options: an empty string, an int64 that is 0 and
    any value of a context whose IsNil is set make it set StopValidate
    and return nil; a string that is not empty and an int64 that is not
    0 make it return nil with the context as it was; a value of any
    other type, IsNil not set, makes it return the unsupported-type
    error of "empty". *)
Theorem IsEmpty_cases (ctx : ValidatorContext) :
  (Value ctx = VString "" \/ Value ctx = VInt64 0 \/ IsNil ctx = true ->
   IsEmpty ctx [] = (set_StopValidate ctx true, None)
   /\ StopValidate (fst (IsEmpty ctx [])) = true)
  /\ (IsNil ctx = false ->
      (exists s, Value ctx = VString s /\ s <> "")
      \/ (exists n, Value ctx = VInt64 n /\ n <> 0) ->
      IsEmpty ctx [] = (ctx, None))
  /\ (IsNil ctx = false ->
      (forall s, Value ctx <> VString s) ->
      (forall n, Value ctx <> VInt64 n) ->
      IsEmpty ctx [] = (ctx, Some (NewUnsupportedTypeError "empty" (Value ctx)))).
Proof.
  split; [| split].
  - intros Hc. destruct ctx as [v nil stop]; simpl in *. unfold IsEmpty; simpl.
    destruct Hc as [Hs | [Hn | Hnil]]; subst; simpl; try (split; reflexivity).
    + destruct nil; split; reflexivity.
    + destruct nil; split; reflexivity.
    + destruct v; split; reflexivity.
  - intros Hnil [[s [Hv Hs]] | [n [Hv Hn]]]; destruct ctx as [v nil stop];
      simpl in *; subst; unfold IsEmpty; simpl.
    + destruct s as [| c s]; [congruence | reflexivity].
    + destruct (Z.eqb_spec n 0); [congruence | reflexivity].
  - intros Hnil Hs Hn. destruct ctx as [v nil stop]; simpl in *; subst.
    unfold IsEmpty; simpl.
    destruct v; try reflexivity; [exfalso; eapply Hs | exfalso; eapply Hn]; reflexivity.
Qed.

Lemma IsEmpty_cases_witness :
  let ctx := {| Value := VString "x"; IsNil := false; StopValidate := false |} in
  let nilctx := {| Value := VOther (OSlice TString); IsNil := true; StopValidate := false |} in
  let slice := {| Value := VOther (OSlice TString); IsNil := false; StopValidate := false |} in
  IsEmpty ctx [] = (ctx, None)
  /\ StopValidate (fst (IsEmpty nilctx [])) = true
  /\ IsEmpty slice [] = (slice, Some (NewUnsupportedTypeError "empty" (Value slice))).
Proof.
  intros ctx nilctx slice. split; [| split].
  - apply (proj1 (proj2 (IsEmpty_cases ctx))); [reflexivity |].
    left. exists "x". split; [reflexivity | discriminate].
  - apply (proj1 (IsEmpty_cases nilctx)). right. right. reflexivity.
  - apply (proj2 (proj2 (IsEmpty_cases slice))); [reflexivity | discriminate | discriminate].
Defined.

(** C3. With one option that reads as an integer and a context whose
    IsNil is set around a string, an int64 or a float64, IsMax returns
    nil whatever the threshold, and IsMin returns the error of a value
    below the threshold. *)
Theorem IsMax_nil_passes_IsMin_nil_fails
    (ctx : ValidatorContext) (option0 : string) (threshold : Z) :
  parsesAs option0 threshold ->
  IsNil ctx = true ->
  supported (Value ctx) ->
  IsMax ctx [option0] = (ctx, None)
  /\ exists e, IsMin ctx [option0] = (ctx, Some e) /\ tooSmall threshold e.
Proof.
  unfold parsesAs. intros Hparse Hnil Hsup.
  destruct ctx as [v nil stop]; simpl in *; subst.
  unfold IsMax, IsMin, tooSmall; rewrite Hparse; simpl.
  destruct v; simpl in Hsup; try contradiction; (split; [reflexivity |]);
    eexists; (split; [reflexivity |]); auto.
Qed.

Lemma IsMax_nil_passes_IsMin_nil_fails_witness :
  let ctx := {| Value := VInt64 0; IsNil := true; StopValidate := false |} in
  IsMax ctx ["-5"] = (ctx, None)
  /\ exists e, IsMin ctx ["-5"] = (ctx, Some e) /\ tooSmall (-5) e.
Proof.
  intros ctx.
  apply (IsMax_nil_passes_IsMin_nil_fails ctx "-5" (-5)); [reflexivity | reflexivity | exact I].
Defined.

(** C5. With one option that does not read as an integer, IsMin and
    IsMax return their format error for every context, whatever the
    type of its value, and leave the context as it was. *)
Theorem format_error_first (ctx : ValidatorContext) (option0 : string) :
  unparsable option0 ->
  IsMin ctx [option0] = (ctx, Some (errorString "Unable to parse 'min' validator value."))
  /\ IsMax ctx [option0] = (ctx, Some (errorString "Unable to parse 'max' validator value.")).
Proof.
  unfold unparsable, IsMin, IsMax. intros Herr.
  destruct (strconv.Atoi option0) as [n [e |]]; simpl in Herr; [| congruence].
  split; reflexivity.
Qed.

Lemma format_error_first_witness :
  let ctx := {| Value := VOther OBool; IsNil := false; StopValidate := false |} in
  IsMin ctx ["x"] = (ctx, Some (errorString "Unable to parse 'min' validator value."))
  /\ IsMax ctx ["x"] = (ctx, Some (errorString "Unable to parse 'max' validator value.")).
Proof.
  intros ctx. apply (format_error_first ctx "x"). discriminate.
Defined.

Lemma Atoi_int64 option0 threshold :
  parsesAs option0 threshold -> strconv.int64 threshold = threshold.
Proof.
  unfold parsesAs, strconv.Atoi. intros Hp.
  apply (strconv_spec.ParseInt_accepts option0 0 threshold) in Hp as [_ Hr];
    [| right; reflexivity].
  apply strconv_spec.int64_small.
  change (strconv.bits 0 - 1) with 63 in Hr. lia.
Qed.

(** C1. IsNumeric without options on a string: with IsNil set or the
    string empty it returns "{field} must be numeric." and leaves the
    context as it was; with a string ParseInt(s, 10, 32) rejects it
    returns "{field} must contain numbers only." and leaves the context
    as it was; with a string ParseInt accepts it returns nil and the
    context holds the parsed integer, an int64 in the 32-bit range, in
    place of the string, so that IsMin and IsMax called next on the
    context compare the integer with their threshold. *)
Theorem IsNumeric_cases (ctx : ValidatorContext) (s : string) :
  Value ctx = VString s ->
  (IsNil ctx = true \/ s = "" ->
   IsNumeric ctx [] = (ctx, Some (errorString "{field} must be numeric.")))
  /\ (IsNil ctx = false -> s <> "" -> snd (strconv.ParseInt s 32) <> None ->
      IsNumeric ctx [] = (ctx, Some (errorString "{field} must contain numbers only.")))
  /\ (forall v, IsNil ctx = false -> s <> "" -> strconv.ParseInt s 32 = (v, None) ->
      let ctx' := set_Value ctx (VInt64 v) in
      IsNumeric ctx [] = (ctx', None)
      /\ strconv_props.decimal s = Some v
      /\ - 2 ^ 31 <= v <= 2 ^ 31 - 1
      /\ forall option0 threshold, parsesAs option0 threshold ->
           IsMin (fst (IsNumeric ctx [])) [option0] =
             (ctx', if v <? threshold
                    then Some (errorString ("{field} cannot be less than "
                                            ++ strconv.Itoa threshold ++ ".")%string)
                    else None)
           /\ IsMax (fst (IsNumeric ctx [])) [option0] =
             (ctx', if threshold <? v
                    then Some (errorString ("{field} cannot be greater than "
                                            ++ strconv.Itoa threshold ++ ".")%string)
                    else None)).
Proof.
  intros Hv. destruct ctx as [val nil stop]; simpl in Hv; subst val.
  unfold IsNumeric; simpl.
  split; [| split].
  - intros [-> | ->]; [reflexivity |]. destruct nil; reflexivity.
  - intros -> Hs Herr. destruct s as [| c s]; [congruence |]. cbn [orb].
    change (len (String c s) =? 0) with false. cbv iota.
    destruct (strconv.ParseInt (String c s) 32) as [n [e |]]; [reflexivity |].
    simpl in Herr. congruence.
  - intros v -> Hs Hparse. destruct s as [| c s]; [congruence |]. cbn [orb].
    change (len (String c s) =? 0) with false. cbv iota.
    rewrite Hparse.
    pose proof (proj1 (strconv_spec.ParseInt_accepts _ 32 v (or_introl eq_refl)) Hparse)
      as [Hdec Hrange].
    change (strconv.bits 32 - 1) with 31 in Hrange.
    split; [reflexivity |]. split; [exact Hdec |]. split; [lia |].
    intros option0 threshold Hp. unfold parsesAs in Hp. split.
    + unfold IsMin. rewrite Hp. cbn [fst set_Value Value IsNil orb].
      rewrite (Atoi_int64 _ _ Hp). destruct (v <? threshold); reflexivity.
    + unfold IsMax. rewrite Hp. cbn [fst set_Value Value IsNil negb andb].
      rewrite (Atoi_int64 _ _ Hp). destruct (threshold <? v); reflexivity.
Qed.

Lemma IsNumeric_cases_witness :
  let ctx s := {| Value := VString s; IsNil := false; StopValidate := false |} in
  IsNumeric (ctx "") [] = (ctx "", Some (errorString "{field} must be numeric."))
  /\ IsNumeric (ctx "12a") [] =
       (ctx "12a", Some (errorString "{field} must contain numbers only."))
  /\ IsNumeric (ctx "123") [] = (set_Value (ctx "123") (VInt64 123), None)
  /\ IsMin (fst (IsNumeric (ctx "123") [])) ["200"] =
       (set_Value (ctx "123") (VInt64 123),
        Some (errorString "{field} cannot be less than 200.")).
Proof.
  intros ctx. split; [| split; [| split]].
  - apply (proj1 (IsNumeric_cases (ctx "") "" eq_refl)). right. reflexivity.
  - apply (proj1 (proj2 (IsNumeric_cases (ctx "12a") "12a" eq_refl)));
      [reflexivity | discriminate | discriminate].
  - apply (proj2 (proj2 (IsNumeric_cases (ctx "123") "123" eq_refl)) 123);
      [reflexivity | discriminate | reflexivity].
  - destruct (proj2 (proj2 (IsNumeric_cases (ctx "123") "123" eq_refl)) 123
                eq_refl ltac:(discriminate) eq_refl) as [_ [_ [_ Hnext]]].
    exact (proj1 (Hnext "200" 200 eq_refl)).
Defined.

Section WithTables.

Context `{Tables}.

Lemma lowercase_loop_not_unsupported chars u :
  lowercase_loop chars <> Some (unsupportedType u).
Proof.
  induction chars as [| c rest IH]; simpl; [discriminate |].
  destruct (IsLetter c && negb (IsLower c)); [discriminate | exact IH].
Qed.

Lemma uppercase_loop_not_unsupported chars u :
  uppercase_loop chars <> Some (unsupportedType u).
Proof.
  induction chars as [| c rest IH]; simpl; [discriminate |].
  destruct (IsLetter c && negb (IsUpper c)); [discriminate | exact IH].
Qed.

(** No built-in validator writes [IsNil]. *)
Lemma IsNil_unchanged name f ctx options :
  In (name, f) registerDefaultValidators ->
  IsNil (fst (f ctx options)) = IsNil ctx.
Proof.
  intros Hin. registered Hin; enter options;
    by_cases ctx; try reflexivity; try split_if; try reflexivity.
  destruct (strconv.ParseInt s 32) as [n [e |]]; reflexivity.
Qed.

(** The names of the registered validators give different messages. *)
Lemma unsupportedMessage_inj name1 f1 name2 f2 :
  In (name1, f1) registerDefaultValidators ->
  In (name2, f2) registerDefaultValidators ->
  unsupportedMessage name1 = unsupportedMessage name2 ->
  name1 = name2.
Proof.
  intros H1 H2. registered H1; registered H2; intros Hm;
    try reflexivity; vm_compute in Hm; discriminate Hm.
Qed.

Ltac open_result Hres options :=
  unfold IsEmpty, IsNotEmpty, IsMin, IsMax, IsLowerCase, IsUpperCase, IsNumeric in Hres;
  try (destruct (0 <? length options)%nat; [discriminate Hres |]);
  try (destruct options as [| ?o [|]]; try discriminate Hres;
       destruct (strconv.Atoi o) as [?m [?e |]]; [discriminate Hres |]).

(** C9. An unsupported-type error returned by a built-in validator is
    the one NewUnsupportedTypeError makes from the name the validator
    is registered under and the value of the context: its message
    holds that name, which no other registered validator's message
    does, and its type is the dynamic type of the value. *)
Theorem unsupported_error_names_validator_and_type
    name f (ctx ctx' : ValidatorContext) options (e : UnsupportedTypeError) :
  In (name, f) registerDefaultValidators ->
  f ctx options = (ctx', Some (unsupportedType e)) ->
  unsupportedType e = NewUnsupportedTypeError name (Value ctx)
  /\ Message e = unsupportedMessage name
  /\ Type_ e = TypeOf (Value ctx)
  /\ (forall name2 f2, In (name2, f2) registerDefaultValidators ->
        Message e = unsupportedMessage name2 -> name2 = name).
Proof.
  intros Hin Hres.
  assert (Hnew : unsupportedType e = NewUnsupportedTypeError name (Value ctx)).
  { registered Hin; open_result Hres options;
      destruct ctx as [v nil stop]; destruct v; simpl in *;
      repeat match type of Hres with
             | context [if ?b then _ else _] => destruct b
             end;
      try discriminate Hres;
      try (inversion Hres; reflexivity).
    - exfalso. inversion Hres as [[Hc Hl]].
      exact (lowercase_loop_not_unsupported _ _ Hl).
    - exfalso. inversion Hres as [[Hc Hl]].
      exact (uppercase_loop_not_unsupported _ _ Hl).
    - destruct (strconv.ParseInt s 32) as [n [pe |]]; discriminate Hres. }
  inversion Hnew; subst e; simpl.
  repeat split; try reflexivity.
  intros name2 f2 Hin2 Hm. symmetry.
  exact (unsupportedMessage_inj _ _ _ _ Hin Hin2 Hm).
Qed.

(** C4. A built-in validator called with a number of options it does
    not take returns its arity error and leaves the context as it
    was: the error is fixed by the validator and is the same for every
    context. *)
Theorem arity_error_ignores_context
    name f (ctx other : ValidatorContext) options :
  In (name, f) registerDefaultValidators ->
  wrongArity name options ->
  f ctx options = (ctx, Some (arityError name))
  /\ snd (f other options) = snd (f ctx options).
Proof.
  intros Hin Hwrong.
  assert (Hall : forall c, f c options = (c, Some (arityError name))).
  { intros c. registered Hin; unfold wrongArity in Hwrong; simpl in Hwrong;
      try (destruct options as [| o rest]; [congruence | reflexivity]);
      destruct options as [| o [| o' rest]]; simpl in Hwrong;
      try congruence; reflexivity. }
  rewrite !Hall. split; reflexivity.
Qed.

(** C10. Of the built-in validators only IsEmpty writes StopValidate:
    every other one returns with the flag as it was, and none, IsEmpty
    included, takes the flag from true to false. *)
Theorem only_IsEmpty_writes_StopValidate name f (ctx : ValidatorContext) options :
  In (name, f) registerDefaultValidators ->
  (name <> "empty" -> StopValidate (fst (f ctx options)) = StopValidate ctx)
  /\ (StopValidate ctx = true -> StopValidate (fst (f ctx options)) = true).
Proof.
  intros Hin.
  assert (Hother : name <> "empty" ->
                   StopValidate (fst (f ctx options)) = StopValidate ctx).
  { intros Hname. registered Hin; try congruence; enter options;
      by_cases ctx; try reflexivity; try split_if; try reflexivity;
      destruct (strconv.ParseInt s 32) as [n [e |]]; reflexivity. }
  split; [exact Hother |].
  intros Hstop. destruct (string_dec name "empty") as [-> | Hname].
  - assert (f = IsEmpty) as -> by (registered Hin; reflexivity).
    unfold IsEmpty. destruct (0 <? length options)%nat; [exact Hstop |].
    by_cases ctx; try reflexivity; try split_if; try reflexivity; exact Hstop.
  - rewrite (Hother Hname). exact Hstop.
Qed.

End WithTables.

Lemma unsupported_error_names_validator_and_type_witness :
  let ctx := {| Value := VOther (OSlice TString); IsNil := false; StopValidate := false |} in
  exists e,
    IsMin ctx ["3"] = (ctx, Some (unsupportedType e))
    /\ Message e = unsupportedMessage "min"
    /\ Type_ e = Some (TOther (OSlice TString)).
Proof.
  intros ctx. eexists. split; [reflexivity |].
  pose proof (@unsupported_error_names_validator_and_type fixtures.latin1Tables
                "min" IsMin ctx ctx ["3"] _
                (or_intror (or_intror (or_introl eq_refl))) eq_refl) as [_ [Hm [Ht _]]].
  split; [exact Hm | exact Ht].
Defined.

Lemma arity_error_ignores_context_witness :
  let ctx := {| Value := VString "abc"; IsNil := false; StopValidate := false |} in
  let other := {| Value := VOther OBool; IsNil := true; StopValidate := true |} in
  IsMax ctx ["1"; "2"] = (ctx, Some (arityError "max"))
  /\ snd (IsMax other ["1"; "2"]) = snd (IsMax ctx ["1"; "2"]).
Proof.
  intros ctx other.
  apply (@arity_error_ignores_context fixtures.latin1Tables "max" IsMax ctx other ["1"; "2"]).
  - right. right. right. left. reflexivity.
  - simpl. discriminate.
Defined.

Lemma only_IsEmpty_writes_StopValidate_witness :
  let ctx := {| Value := VString "42"; IsNil := false; StopValidate := true |} in
  StopValidate (fst (IsNumeric ctx [])) = StopValidate ctx
  /\ StopValidate (fst (IsEmpty ctx [])) = true.
Proof.
  intros ctx. split.
  - refine (proj1 (@only_IsEmpty_writes_StopValidate fixtures.latin1Tables
                     "numeric" IsNumeric ctx [] _) _).
    + do 6 right. left. reflexivity.
    + discriminate.
  - refine (proj2 (@only_IsEmpty_writes_StopValidate fixtures.latin1Tables
                     "empty" IsEmpty ctx [] _) _).
    + left. reflexivity.
    + reflexivity.
Defined.

(** IsEmpty does write the flag. *)
Example IsEmpty_writes_StopValidate :
  let ctx := {| Value := VString ""; IsNil := false; StopValidate := false |} in
  StopValidate ctx = false /\ StopValidate (fst (IsEmpty ctx [])) = true.
Proof. split; reflexivity. Qed.

(** The cases the specification lists for testing. *)

Example IsMin_3 :
  let ctx v := {| Value := v; IsNil := false; StopValidate := false |} in
  snd (IsMin (ctx (VString "ab")) ["3"])
    = Some (errorString "{field} cannot be shorter than 3 characters.")
  /\ snd (IsMin (ctx (VString "abc")) ["3"]) = None
  /\ snd (IsMin (ctx (VInt64 2)) ["3"]) = Some (errorString "{field} cannot be less than 3.")
  /\ snd (IsMin (ctx (VInt64 3)) ["3"]) = None
  /\ snd (IsMin (ctx (VFloat64 (float64_of_int 2))) ["3"])
     = Some (errorString "{field} cannot be less than 3.")
  /\ snd (IsMin (ctx (VInt64 3)) ["x"])
     = Some (errorString "Unable to parse 'min' validator value.").
Proof. repeat split. Qed.

Example IsMax_3 :
  let ctx v := {| Value := v; IsNil := false; StopValidate := false |} in
  snd (IsMax (ctx (VString "abcd")) ["3"])
    = Some (errorString "{field} is longer than 3 characters.")
  /\ snd (IsMax (ctx (VString "abc")) ["3"]) = None
  /\ snd (IsMax (ctx (VFloat64 (float64_of_int 4))) ["3"])
     = Some (errorString "{field} cannot be greater than 3.").
Proof. repeat split. Qed.

Example IsNotEmpty_zero :
  let ctx v := {| Value := v; IsNil := false; StopValidate := false |} in
  snd (IsNotEmpty (ctx (VString "")) []) = Some (errorString "{field} cannot be empty.")
  /\ snd (IsNotEmpty (ctx (VFloat64 float64_zero)) [])
     = Some (errorString "{field} cannot be empty.")
  /\ snd (IsNotEmpty (ctx (VFloat64 (float64_of_int 1))) []) = None
  /\ snd (IsNotEmpty (ctx (VString "a")) []) = None.
Proof. repeat split. Qed.

Example case_validators :
  let ctx s := {| Value := VString s; IsNil := false; StopValidate := false |} in
  let lowercase := @IsLowerCase fixtures.latin1Tables in
  let uppercase := @IsUpperCase fixtures.latin1Tables in
  snd (lowercase (ctx "abc") []) = None
  /\ snd (uppercase (ctx "abc") []) = Some (errorString "{field} must be in upper case.")
  /\ snd (uppercase (ctx "ABC") []) = None
  /\ snd (lowercase (ctx "ABC") []) = Some (errorString "{field} must be in lower case.")
  /\ snd (lowercase (ctx "a1!") []) = None
  /\ snd (lowercase (ctx "") []) = None
  /\ snd (uppercase (ctx "") []) = None.
Proof. repeat split. Qed.

End validators_spec.

(** * Properties of package core *)

Module core_spec.

Import core core_props.

Lemma append_assoc (a b c : string) : ((a ++ b) ++ c = a ++ (b ++ c))%string.
Proof. induction a as [| x a IH]; simpl; [reflexivity | rewrite IH; reflexivity]. Qed.

Lemma append_empty_r (a : string) : (a ++ "" = a)%string.
Proof. induction a as [| x a IH]; simpl; [reflexivity | rewrite IH; reflexivity]. Qed.

Lemma length_zero (a : string) : (0 <? String.length a)%nat = false -> a = "".
Proof. destruct a; [reflexivity | discriminate]. Qed.

Section FullName.

Variable any : Type.
Variable TagGroup : Type.

Local Abbreviation ReflectedField := (ReflectedField any TagGroup).

Lemma prepend_app l1 l2 acc : prepend (l1 ++ l2) acc = prepend l1 (prepend l2 acc).
Proof. unfold prepend. apply fold_right_app. Qed.

Lemma nonEmpty_app l1 l2 : nonEmpty (l1 ++ l2) = (nonEmpty l1 ++ nonEmpty l2)%list.
Proof. unfold nonEmpty. apply filter_app. Qed.

Lemma FullName_climb_chain : forall (p : ReflectedField) (acc : string),
  FullName_climb p acc = prepend (nonEmpty (chain p)) acc.
Proof.
  fix IH 1. intros [[q |] name v groups] acc; simpl.
  - rewrite IH, nonEmpty_app, prepend_app. simpl.
    destruct (0 <? String.length name)%nat; reflexivity.
  - destruct (0 <? String.length name)%nat; reflexivity.
Qed.

Lemma dotted_snoc l x : dotted (l ++ [x]) = prepend l x.
Proof.
  unfold dotted, strings.Join.
  induction l as [| a l IH]; [reflexivity |].
  simpl. rewrite <- IH. destruct l; reflexivity.
Qed.

Lemma dotted_app l1 l2 :
  l1 <> [] -> l2 <> [] -> dotted (l1 ++ l2) = (dotted l1 ++ "." ++ dotted l2)%string.
Proof.
  unfold dotted, strings.Join. intros H1 H2.
  induction l1 as [| a l IH]; [congruence |].
  destruct l as [| b l].
  - simpl. destruct l2; [congruence | reflexivity].
  - change (String.concat "." ((a :: b :: l) ++ l2))
      with (a ++ "." ++ String.concat "." ((b :: l) ++ l2))%string.
    rewrite IH by discriminate.
    change (String.concat "." (a :: b :: l))
      with (a ++ "." ++ String.concat "." (b :: l))%string.
    rewrite !append_assoc. reflexivity.
Qed.

Lemma FullName_no_postfix (this : ReflectedField) :
  FullName this [] = dotted (segments this []).
Proof.
  unfold FullName, FullName_loop, segments, ancestors. simpl.
  rewrite dotted_snoc.
  destruct (Parent this) as [p |].
  - apply FullName_climb_chain.
  - reflexivity.
Qed.

Lemma base_empty (this : ReflectedField) :
  String.eqb (dotted (segments this [])) "" = bare this.
Proof.
  unfold segments, bare. simpl. rewrite dotted_snoc.
  destruct (nonEmpty (ancestors this)) as [| a l]; [reflexivity |].
  simpl. destruct a; reflexivity.
Qed.

Lemma FullName_by_base (this : ReflectedField) (postfix : list string) :
  FullName this postfix =
    (if String.eqb (dotted (segments this [])) ""
     then dotted postfix
     else dotted (segments this postfix)).
Proof.
  pose proof (FullName_no_postfix this) as Hbase.
  unfold FullName in *. cbn [length Nat.ltb Nat.leb] in Hbase.
  remember (FullName_loop (Parent this)
              (Name this)) as fullName eqn:Efull.
  rewrite <- Hbase.
  destruct postfix as [| seg postfix].
  - cbn [length Nat.ltb Nat.leb].
    destruct (String.eqb_spec fullName "") as [-> | _]; [reflexivity | exact Hbase].
  - change (0 <? length (seg :: postfix))%nat with true. cbv iota.
    destruct (String.eqb_spec fullName "") as [-> | Hne]; [reflexivity |].
    assert (Hseg : segments this (seg :: postfix)
                   = (segments this [] ++ seg :: postfix)%list).
    { unfold segments. rewrite <- app_assoc. reflexivity. }
    rewrite Hseg, dotted_app, <- Hbase; [| | discriminate].
    + destruct fullName as [| c rest]; [congruence |].
      change (0 <? String.length (String c rest))%nat with true. cbv iota.
      apply append_assoc.
    + unfold segments.
      destruct (nonEmpty (ancestors this)); discriminate.
Qed.

(** C7, as the code has it.  FullName(postfix...) is the dotted join of
    the ancestors' names that are not empty (the outermost first), the
    field's own name and the postfix segments; only for a field with no
    name of its own and no named ancestor is the postfix joined on its
    own, with no dot in front.  A field "Inner" below a field "Outer"
    that has no parent has the full name "Outer.Inner". *)
Theorem FullName_dotted (this : ReflectedField) (postfix : list string) :
  FullName this postfix =
    (if bare this then dotted postfix else dotted (segments this postfix))
  /\ (forall (v1 v2 : any) (g1 g2 : list TagGroup),
        let outer := {| Parent := None; Name := "Outer";
                        Value := v1; TagGroups := g1 |} in
        let inner := {| Parent := Some outer; Name := "Inner";
                        Value := v2; TagGroups := g2 |} in
        FullName inner [] = "Outer.Inner").
Proof.
  split; [| reflexivity].
  rewrite <- base_empty. apply FullName_by_base.
Qed.

End FullName.

Section Walk.

Context `{unicode.Tables}.
Variable any : Type.
Variable TagGroup : Type.
Variable tagError : Type.
Variable parseTag : string -> list TagGroup * option tagError.
Variable StructTag_Get : string -> string -> string.

Local Abbreviation loop := (GetStructFields_loop parseTag StructTag_Get).
Local Abbreviation spec := (walk parseTag StructTag_Get).

(** On a name that begins with an ASCII character the test of the
    code, made on the first byte, is the test of the first character. *)
Lemma firstByteIsUpper_ascii name :
  asciiInitial name = true ->
  firstByteIsUpper name = Return (exported name).
Proof.
  destruct name as [| c rest]; [discriminate |].
  unfold asciiInitial, firstByteIsUpper, exported, utf8.DecodeRuneInString, utf8.first.
  intros ->. reflexivity.
Qed.

Lemma loop_walk tagName (fields : list (StructField * any)) :
  plainFields fields ->
  forall acc,
    loop tagName (map (fun fv => (fst fv, Some (snd fv))) fields) acc =
      Return (match spec tagName fields with
              | (fields', None) => ((acc ++ fields')%list, None)
              | (_, Some err) => ([], Some err)
              end).
Proof.
  induction 1 as [| [field v] rest [[Hname Hpkg] Hascii] Hrest IH]; intros acc.
  - simpl. rewrite app_nil_r. reflexivity.
  - simpl in *. rewrite (firstByteIsUpper_ascii _ Hascii). simpl.
    destruct (exported (StructField_Name field)) eqn:Hexp; [| apply IH].
    destruct (parseTag (StructTag_Get (StructField_Tag field) tagName))
      as [tagGroups [err |]]; [reflexivity |].
    rewrite (proj2 Hpkg eq_refl). simpl.
    rewrite IH. unfold describe.
    destruct (spec tagName rest) as [fields' [err |]]; [reflexivity |].
    rewrite <- app_assoc. reflexivity.
Qed.

Lemma walk_error_nil tagName (fields : list (StructField * any)) fields' err :
  spec tagName fields = (fields', Some err) -> fields' = [].
Proof.
  revert fields' err.
  induction fields as [| [field v] rest IH]; simpl; intros fields' err.
  - discriminate.
  - destruct (exported (StructField_Name field)); [| apply IH].
    destruct (parseTag (StructTag_Get (StructField_Tag field) tagName))
      as [tagGroups [perr |]]; [intros E; inversion E; reflexivity |].
    destruct (spec tagName rest) as [fs [e |]]; intros E; inversion E; reflexivity.
Qed.

(** On a struct, passed by value or by pointer, whose field names
    begin with ASCII characters GetStructFields is the walk of the
    specification. *)
Lemma GetStructFields_plain tagName (fields : list (StructField * any)) :
  plainFields fields ->
  GetStructFields parseTag StructTag_Get (ByValue fields) tagName
    = Return (spec tagName fields)
  /\ GetStructFields parseTag StructTag_Get (ByPointer fields) tagName
    = Return (spec tagName fields).
Proof.
  intros Hplain. unfold GetStructFields. simpl.
  rewrite (loop_walk tagName fields Hplain []).
  destruct (spec tagName fields) as [fields' [err |]] eqn:E; [| split; reflexivity].
  rewrite (walk_error_nil _ _ _ _ E). split; reflexivity.
Qed.

Lemma loop_error tagName (rest : list (StructField * option any)) :
  forall acc fields err,
  loop tagName rest acc = Return (fields, Some err) ->
  fields = []
  /\ exists field v,
       In (field, v) rest
       /\ firstByteIsUpper (StructField_Name field) = Return true
       /\ snd (parseTag (StructTag_Get (StructField_Tag field) tagName)) = Some err.
Proof.
  induction rest as [| [field v] rest IH]; intros acc fields err; simpl.
  - discriminate.
  - destruct (firstByteIsUpper (StructField_Name field)) as [[|] |] eqn:Hup;
      simpl; try discriminate.
    + destruct (parseTag (StructTag_Get (StructField_Tag field) tagName))
        as [tagGroups [perr |]] eqn:Hparse.
      * intros E. inversion E; subst. split; [reflexivity |].
        exists field, v. rewrite Hparse. auto.
      * destruct (Field_Interface field v) as [x |]; simpl; [| discriminate].
        intros E. apply IH in E as [-> [f' [v' [Hin Hrest]]]].
        split; [reflexivity |]. exists f', v'. auto.
    + intros E. apply IH in E as [-> [f' [v' [Hin Hrest]]]].
      split; [reflexivity |]. exists f', v'. auto.
Qed.

(** Whatever is passed, an error comes with the nil list, and it is
    the error of the tag of a field the walk took up. *)
Lemma GetStructFields_error (value : structArg any) tagName fields err :
  GetStructFields parseTag StructTag_Get value tagName = Return (fields, Some err) ->
  fields = [].
Proof.
  unfold GetStructFields. destruct (reflectValue value) as [all |]; simpl;
    [| discriminate].
  intros E. apply loop_error in E. tauto.
Qed.

(** A name whose first byte is C3 is taken up whatever its first
    character is, and one whose first byte is DF or above never is:
    the code reads the byte as if it were the character. *)
Lemma firstByteIsUpper_byte c rest :
  (strconv.byte_val c = 195 -> firstByteIsUpper (String c rest) = Return true)
  /\ (223 <= strconv.byte_val c <= 255 ->
      firstByteIsUpper (String c rest) = Return false).
Proof.
  unfold firstByteIsUpper, unicode.IsUpper, unicode.latin1, unicode.MaxLatin1.
  split.
  - intros ->. reflexivity.
  - intros Hb.
    destruct (Z.leb_spec 0 (strconv.byte_val c)); [| lia].
    destruct (Z.leb_spec (strconv.byte_val c) 255); [| lia].
    simpl. unfold unicode.properties.
    repeat match goal with
           | |- context [?a <=? ?b] => destruct (Z.leb_spec a b); try lia
           | |- context [?a =? ?b] => destruct (Z.eqb_spec a b); try lia
           end; reflexivity.
Qed.

End Walk.

(** C7, counterexample.  A field without parent and with the empty
    name, asked for its full name with the postfix "x", answers "x": the
    join of the segments, the own name among them, would be ".x". *)
Lemma FullName_empty_name_no_leading_dot :
  let this : ReflectedField unit unit :=
    {| Parent := None; Name := ""; Value := tt; TagGroups := [] |} in
  FullName this ["x"] = "x"
  /\ dotted (segments this ["x"]) = ".x"
  /\ FullName this ["x"] <> dotted (segments this ["x"]).
Proof. repeat split. discriminate. Qed.

(** C6, the code on a field it misreads.  The struct has the one field
    "ñame", unexported: its first character is a lower-case letter,
    the walk of the specification skips it and returns no descriptor.
    The code tests the first byte, C3, which read as a character is
    the upper-case letter U+00C3, takes the field up, and the read of
    its value panics. *)
Theorem GetStructFields_takes_first_byte_for_character (T : unicode.Tables) :
  let field := {| StructField_Name := fixtures.name_n_tilde;
                  StructField_PkgPath := "main";
                  StructField_Tag := "" |} in
  wf_field field
  /\ exported (StructField_Name field) = false
  /\ firstByteIsUpper (StructField_Name field) = Return true
  /\ walk fixtures.parseTag fixtures.StructTag_Get "validate" [(field, "v")]
     = ([], None)
  /\ GetStructFields fixtures.parseTag fixtures.StructTag_Get
       (ByValue [(field, "v")]) "validate" = Panic.
Proof.
  intros field.
  assert (Hexp : exported (StructField_Name field) = false) by reflexivity.
  split; [| split; [exact Hexp | split; [reflexivity | split; reflexivity]]].
  split; [discriminate |]. rewrite Hexp. split; discriminate.
Qed.

Section Call.

Variable any : Type.
Variable rtype : Type.
Variable TypeOf : any -> option rtype.
Variable rtype_eqb : rtype -> rtype -> bool.
Variable isInterface : rtype -> bool.

Local Abbreviation call := (CallDynamicMethod TypeOf rtype_eqb isInterface).

(** Where the two lookups do not panic, the error "Method does not
    exist." is returned exactly when the name does not resolve on
    the pointer form, whatever the value form says. *)
Lemma CallDynamicMethod_not_found_iff
    (i : target any rtype) methodName args value ptr onValue :
  value_and_ptr i = Return (value, ptr) ->
  MethodByName value methodName = Return onValue ->
  call i methodName args = Return ([], Some InvalidMethodError)
  <-> MethodByName ptr methodName = Return None.
Proof.
  intros Hvp Hval. unfold CallDynamicMethod. rewrite Hvp. simpl. rewrite Hval. simpl.
  assert (Hptr : exists onPtr, MethodByName ptr methodName = Return onPtr).
  { destruct i as [| d | elem p]; simpl in Hvp; inversion Hvp; subst;
      unfold MethodByName;
      match goal with
      | |- context [find ?f ?l] => destruct (find f l)
      end; eauto. }
  destruct Hptr as [[m |] ->]; simpl.
  - split; [| discriminate].
    destruct (negb (length args =? length (Method_In m))%nat); [discriminate |].
    destruct (mismatch TypeOf rtype_eqb isInterface (Method_In m) args);
      [discriminate |].
    destruct (Method_Call m ViaPointer args); discriminate.
  - split; reflexivity.
Qed.

(** A method of a defined type is a method of the pointer to it. *)
Lemma resolves_on_pointer (d : DefinedType any rtype) methodName :
  resolves (Val (Defined d) false) methodName ->
  resolves (Val (PtrTo (Defined d)) false) methodName.
Proof.
  unfold resolves, MethodByName. simpl. intros [m Hm].
  destruct (find _ (valueReceiver d)) as [m' |] eqn:E; [| discriminate].
  exists m'.
  assert (Hfind : forall l2, find (fun m0 => (Method_Name m0 =? methodName)%string)
                               (valueReceiver d ++ l2) = Some m').
  { revert E. generalize (valueReceiver d).
    induction l as [| a l IH]; simpl; [discriminate |].
    destruct (Method_Name a =? methodName)%string; auto. }
  rewrite Hfind. reflexivity.
Qed.

(** For a value of a defined type, and for a pointer to one, the
    error is returned exactly when the name resolves on neither
    form. *)
Lemma CallDynamicMethod_defined_not_found
    (d : DefinedType any rtype) (i : target any rtype) methodName args :
  i = TValue d \/ i = TPointer (Defined d) (Pointee false) ->
  call i methodName args = Return ([], Some InvalidMethodError)
  <-> ~ resolves (Val (Defined d) false) methodName
      /\ ~ resolves (Val (PtrTo (Defined d)) false) methodName.
Proof.
  intros Hi.
  assert (Hvp : value_and_ptr i
                = Return (Val (Defined d) false, Val (PtrTo (Defined d)) false))
    by (destruct Hi; subst; reflexivity).
  assert (Hval : exists onValue,
             MethodByName (Val (Defined d) false) methodName = Return onValue).
  { unfold MethodByName. simpl. destruct (find _ (valueReceiver d)); eauto. }
  destruct Hval as [onValue Hval].
  rewrite (CallDynamicMethod_not_found_iff i methodName args _ _ _ Hvp Hval).
  split.
  - intros Hnone. assert (Hp : ~ resolves (Val (PtrTo (Defined d)) false) methodName).
    { intros [m Hm]. rewrite Hnone in Hm. discriminate. }
    split; [| exact Hp]. intros Hv. apply Hp, resolves_on_pointer, Hv.
  - intros [_ Hp]. unfold resolves in Hp.
    unfold MethodByName in *. simpl in *.
    destruct (find _ (valueReceiver d ++ pointerReceiver d)) as [m |];
      [exfalso; apply Hp; eauto | reflexivity].
Qed.

(** When the name resolves on the pointer form, the method found
    there is the one that is called, bound to the pointer, whether or
    not the value form resolves too. *)
Lemma CallDynamicMethod_calls_pointer_form
    (i : target any rtype) methodName args value ptr onValue m :
  value_and_ptr i = Return (value, ptr) ->
  MethodByName value methodName = Return onValue ->
  MethodByName ptr methodName = Return (Some m) ->
  length args = length (Method_In m) ->
  mismatch TypeOf rtype_eqb isInterface (Method_In m) args = false ->
  call i methodName args
  = bind (Method_Call m ViaPointer args) (fun results => Return (results, None)).
Proof.
  intros Hvp Hval Hptr Hlen Hmis. unfold CallDynamicMethod.
  rewrite Hvp. simpl. rewrite Hval. simpl. rewrite Hptr. simpl.
  rewrite Hlen, Nat.eqb_refl, Hmis. reflexivity.
Qed.

End Call.

(** C8, the code on a target it fails.  The target is a pointer to a
    pointer to a Greeter.  "Hello" resolves on the value form, the
    pointer to the Greeter, and not on the reference form, the pointer
    to that pointer; the call returns "Method does not exist.". *)
Theorem CallDynamicMethod_value_form_alone_not_found :
  let i := TPointer (PtrTo (Defined fixtures.Greeter)) (Pointee false) in
  let value := Val (PtrTo (Defined fixtures.Greeter)) false in
  let ptr := Val (PtrTo (PtrTo (Defined fixtures.Greeter))) false in
  value_and_ptr i = Return (value, ptr)
  /\ MethodByName value "Hello" = Return (Some fixtures.Hello)
  /\ MethodByName ptr "Hello" = Return None
  /\ CallDynamicMethod fixtures.TypeOf fixtures.rtype_eqb fixtures.isInterface
       i "Hello" [] = Return ([], Some InvalidMethodError).
Proof. repeat split. Qed.

(** On a Greeter and on a pointer to one the call goes through, with
    the pointer as receiver. *)
Example CallDynamicMethod_Greeter :
  CallDynamicMethod fixtures.TypeOf fixtures.rtype_eqb fixtures.isInterface
    (TValue fixtures.Greeter) "Hello" [] = Return (["pointer receiver"], None)
  /\ CallDynamicMethod fixtures.TypeOf fixtures.rtype_eqb fixtures.isInterface
       (TPointer (Defined fixtures.Plain) (Pointee false)) "Hello" []
     = Return (["pointer receiver"], None)
  /\ CallDynamicMethod fixtures.TypeOf fixtures.rtype_eqb fixtures.isInterface
       (TValue fixtures.Greeter) "Bye" [] = Return ([], Some InvalidMethodError)
  /\ CallDynamicMethod fixtures.TypeOf fixtures.rtype_eqb fixtures.isInterface
       (TValue fixtures.Greeter) "Hello" ["x"]
     = Return ([], Some InputParameterMismatchError).
Proof. repeat split. Qed.

(** A struct with one unexported and one exported field gives one
    descriptor, and a tag that does not parse gives the error alone. *)
Example GetStructFields_two_fields :
  let hidden := {| StructField_Name := "hidden"; StructField_PkgPath := "main";
                   StructField_Tag := "min:1" |} in
  let Shown := {| StructField_Name := "Shown"; StructField_PkgPath := "";
                  StructField_Tag := "not_empty" |} in
  let Broken := {| StructField_Name := "Broken"; StructField_PkgPath := "";
                   StructField_Tag := "?" |} in
  @GetStructFields fixtures.latin1Tables _ _ _ fixtures.parseTag fixtures.StructTag_Get
    (ByPointer [(hidden, "h"); (Shown, "s")]) "validate"
  = Return ([ {| Parent := None; Name := "Shown"; Value := "s";
                 TagGroups := ["not_empty"] |} ], None)
  /\ @GetStructFields fixtures.latin1Tables _ _ _ fixtures.parseTag fixtures.StructTag_Get
       (ByValue [(Shown, "s"); (Broken, "b")]) "validate"
     = Return ([], Some "unknown directive").
Proof. split; reflexivity. Qed.

End core_spec.

(** * Further properties of the built-in validators *)

Module validators_more.

Import validators validators_props validators_spec more_props.

Lemma len_nonneg s : 0 <= len s.
Proof. unfold len. lia. Qed.

Lemma len_zero s : (len s =? 0) = true <-> s = "".
Proof.
  unfold len. destruct s; simpl; split; intros E; try reflexivity; try discriminate.
Qed.

(** X1. On a string and on an int64, without options, IsEmpty and
    IsNotEmpty agree on what is empty: IsEmpty returns nil, and it sets
    StopValidate exactly when IsNotEmpty returns "{field} cannot be
    empty."; it leaves the flag alone exactly when IsNotEmpty returns
    nil. *)
Theorem IsEmpty_stops_iff_IsNotEmpty_fails (ctx : ValidatorContext) :
  StopValidate ctx = false ->
  (exists s, Value ctx = VString s) \/ (exists n, Value ctx = VInt64 n) ->
  snd (IsEmpty ctx []) = None
  /\ (StopValidate (fst (IsEmpty ctx [])) = true
      <-> snd (IsNotEmpty ctx []) = Some (errorString "{field} cannot be empty."))
  /\ (StopValidate (fst (IsEmpty ctx [])) = false
      <-> snd (IsNotEmpty ctx []) = None).
Proof.
  intros Hstop Hv. destruct ctx as [v nil stop]. simpl in *. subst stop.
  unfold IsEmpty, IsNotEmpty. simpl.
  destruct Hv as [[s ->] | [n ->]]; destruct nil; simpl.
  - repeat split; intros; congruence.
  - destruct (len s =? 0); simpl; repeat split; intros; congruence.
  - repeat split; intros; congruence.
  - destruct (n =? 0); simpl; repeat split; intros; congruence.
Qed.

Lemma IsEmpty_stops_iff_IsNotEmpty_fails_witness :
  let ctx := {| Value := VInt64 0; IsNil := false; StopValidate := false |} in
  snd (IsEmpty ctx []) = None
  /\ (StopValidate (fst (IsEmpty ctx [])) = true
      <-> snd (IsNotEmpty ctx []) = Some (errorString "{field} cannot be empty."))
  /\ (StopValidate (fst (IsEmpty ctx [])) = false
      <-> snd (IsNotEmpty ctx []) = None).
Proof.
  intros ctx. apply (IsEmpty_stops_iff_IsNotEmpty_fails ctx); [reflexivity |].
  right. exists 0. reflexivity.
Defined.

Lemma decimal_of_ParseInt s n :
  strconv.ParseInt s 32 = (n, None) <->
  strconv_props.decimal s = Some n /\ - 2 ^ 31 <= n <= 2 ^ 31 - 1.
Proof.
  exact (strconv_spec.ParseInt_accepts s 32 n (or_introl eq_refl)).
Qed.

(** X2. The chain numeric, min, max on one context.  On a string that
    is not nil, IsNumeric, then IsMin with an option that reads as [lo],
    then IsMax with an option that reads as [hi], all return nil exactly
    when the string is the decimal numeral, with an optional sign, of an
    integer of the 32-bit range that lies between [lo] and [hi]. *)
Theorem numeric_min_max_chain
    (ctx : ValidatorContext) (s a b : string) (lo hi : Z) :
  Value ctx = VString s ->
  IsNil ctx = false ->
  parsesAs a lo ->
  parsesAs b hi ->
  let ctx' := fst (IsNumeric ctx []) in
  (snd (IsNumeric ctx []) = None
   /\ snd (IsMin ctx' [a]) = None
   /\ snd (IsMax ctx' [b]) = None)
  <-> exists v, strconv_props.decimal s = Some v
                /\ - 2 ^ 31 <= v <= 2 ^ 31 - 1
                /\ lo <= v <= hi.
Proof.
  intros Hv Hnil Ha Hb. destruct ctx as [val nil stop]. simpl in Hv, Hnil. subst val nil.
  pose proof (Atoi_int64 _ _ Ha) as Hlo. pose proof (Atoi_int64 _ _ Hb) as Hhi.
  unfold parsesAs in Ha, Hb. cbv zeta.
  unfold IsNumeric. cbn [length Nat.ltb Nat.leb Value IsNil orb].
  destruct s as [| c s].
  - simpl. split; [intros [E _]; discriminate | intros [v [E _]]; discriminate].
  - change (len (String c s) =? 0) with false. cbv iota.
    destruct (strconv.ParseInt (String c s) 32) as [n [e |]] eqn:Hparse.
    + simpl. split; [intros [E _]; discriminate |].
      intros [v [Hd [Hr _]]].
      assert (E : strconv.ParseInt (String c s) 32 = (v, None))
        by (apply decimal_of_ParseInt; auto).
      rewrite Hparse in E. discriminate.
    + apply decimal_of_ParseInt in Hparse as [Hd Hr].
      unfold IsMin, IsMax. rewrite Ha, Hb. unfold set_Value.
      cbn [fst snd Value IsNil StopValidate orb negb andb]. rewrite Hlo, Hhi.
      destruct (Z.ltb_spec n lo); destruct (Z.ltb_spec hi n); cbn [snd]; split.
      * intros [_ [E _]]. discriminate.
      * intros [v [Hd' [_ Hw]]]. rewrite Hd in Hd'. inversion Hd'. lia.
      * intros [_ [E _]]. discriminate.
      * intros [v [Hd' [_ Hw]]]. rewrite Hd in Hd'. inversion Hd'. lia.
      * intros [_ [_ E]]. discriminate.
      * intros [v [Hd' [_ Hw]]]. rewrite Hd in Hd'. inversion Hd'. lia.
      * intros _. exists n. repeat split; try assumption; lia.
      * intros _. repeat split.
Qed.

Lemma numeric_min_max_chain_witness :
  let ctx := {| Value := VString "-42"; IsNil := false; StopValidate := false |} in
  let ctx' := fst (IsNumeric ctx []) in
  (snd (IsNumeric ctx []) = None
   /\ snd (IsMin ctx' ["-100"]) = None
   /\ snd (IsMax ctx' ["100"]) = None)
  <-> exists v, strconv_props.decimal "-42" = Some v
                /\ - 2 ^ 31 <= v <= 2 ^ 31 - 1
                /\ -100 <= v <= 100.
Proof.
  intros ctx.
  apply (numeric_min_max_chain ctx "-42" "-100" "100" (-100) 100); reflexivity.
Defined.

(** X3. IsMin and IsMax together make a window.  On a string or an
    int64 that is not nil, IsMin with an option that reads as [lo] and
    IsMax with an option that reads as [hi] both return nil exactly when
    the length of the string in bytes, or the integer, lies between [lo]
    and [hi]; neither changes the context. *)
Theorem IsMin_IsMax_window
    (ctx : ValidatorContext) (a b : string) (lo hi m : Z) :
  IsNil ctx = false ->
  measure (Value ctx) = Some m ->
  parsesAs a lo ->
  parsesAs b hi ->
  (snd (IsMin ctx [a]) = None /\ snd (IsMax ctx [b]) = None <-> lo <= m <= hi)
  /\ fst (IsMin ctx [a]) = ctx
  /\ fst (IsMax ctx [b]) = ctx.
Proof.
  intros Hnil Hm Ha Hb. destruct ctx as [val nil stop]. simpl in Hnil, Hm. subst nil.
  pose proof (Atoi_int64 _ _ Ha) as Hlo. pose proof (Atoi_int64 _ _ Hb) as Hhi.
  unfold parsesAs in Ha, Hb. unfold IsMin, IsMax. rewrite Ha, Hb.
  cbn [Value IsNil orb negb andb].
  destruct val; simpl in Hm; try discriminate; inversion Hm; subst m;
    rewrite ?Hlo, ?Hhi.
  - destruct (Z.ltb_spec (len s) lo); destruct (Z.ltb_spec hi (len s)); cbn [fst snd];
      (split; [split; [intros [E1 E2]; try discriminate; lia
                      | intros Hw; try lia; split; reflexivity]
              | split; reflexivity]).
  - destruct (Z.ltb_spec n lo); destruct (Z.ltb_spec hi n); cbn [fst snd];
      (split; [split; [intros [E1 E2]; try discriminate; lia
                      | intros Hw; try lia; split; reflexivity]
              | split; reflexivity]).
Qed.

Lemma IsMin_IsMax_window_witness :
  let ctx := {| Value := VString "abc"; IsNil := false; StopValidate := false |} in
  (snd (IsMin ctx ["3"]) = None /\ snd (IsMax ctx ["3"]) = None <-> 3 <= 3 <= 3)
  /\ fst (IsMin ctx ["3"]) = ctx
  /\ fst (IsMax ctx ["3"]) = ctx.
Proof.
  intros ctx. apply (IsMin_IsMax_window ctx "3" "3" 3 3 3); reflexivity.
Defined.

(** X4. On a string, nil or not, IsMin with an option that reads as 1
    returns nil exactly when IsNotEmpty without options does. *)
Theorem IsMin_one_is_IsNotEmpty (ctx : ValidatorContext) (s a : string) :
  Value ctx = VString s ->
  parsesAs a 1 ->
  snd (IsMin ctx [a]) = None <-> snd (IsNotEmpty ctx []) = None.
Proof.
  intros Hv Ha. destruct ctx as [val nil stop]. simpl in Hv. subst val.
  unfold parsesAs in Ha. unfold IsMin, IsNotEmpty. rewrite Ha.
  cbn [length Nat.ltb Nat.leb Value IsNil].
  destruct nil; cbn [orb]; [split; intros E; discriminate |].
  pose proof (len_nonneg s).
  destruct (Z.ltb_spec (len s) 1); destruct (Z.eqb_spec (len s) 0); cbn [snd];
    split; intros E; try discriminate; try reflexivity; lia.
Qed.

Lemma IsMin_one_is_IsNotEmpty_witness :
  let ctx := {| Value := VString ""; IsNil := false; StopValidate := false |} in
  snd (IsMin ctx ["+01"]) = None <-> snd (IsNotEmpty ctx []) = None.
Proof.
  intros ctx. apply (IsMin_one_is_IsNotEmpty ctx "" "+01"); reflexivity.
Defined.

(** Take a validator apart, down to the outcome of each of its paths. *)
Ltac paths ctx :=
  destruct ctx as [?v ?nil ?stop];
  unfold IsEmpty, IsNotEmpty, IsMin, IsMax, IsLowerCase, IsUpperCase, IsNumeric;
  cbn [Value IsNil StopValidate];
  repeat match goal with
         | |- context [match ?x with _ => _ end] => destruct x eqn:?
         end;
  cbn [fst snd Value IsNil StopValidate set_Value set_StopValidate].

Lemma lowercase_loop_forallb `{Tables} chars :
  lowercase_loop chars =
    if forallb (fun char => implb (IsLetter char) (IsLower char)) chars
    then None else Some (errorString "{field} must be in lower case.").
Proof.
  induction chars as [| c rest IH]; [reflexivity |]. simpl.
  destruct (IsLetter c); destruct (IsLower c); simpl; auto.
Qed.

Lemma uppercase_loop_forallb `{Tables} chars :
  uppercase_loop chars =
    if forallb (fun char => implb (IsLetter char) (IsUpper char)) chars
    then None else Some (errorString "{field} must be in upper case.").
Proof.
  induction chars as [| c rest IH]; [reflexivity |]. simpl.
  destruct (IsLetter c); destruct (IsUpper c); simpl; auto.
Qed.

Lemma byte_val_range c : 0 <= strconv.byte_val c < 256.
Proof.
  unfold strconv.byte_val. pose proof (N_ascii_bounded c). lia.
Qed.

(** A range loop over a string of ASCII bytes visits the bytes. *)
Lemma range_ascii s : allAscii s = true -> utf8.range s = bytes s.
Proof.
  unfold utf8.range, allAscii.
  induction s as [| c rest IH]; [reflexivity |].
  cbn [bytes forallb]. intros Hall. apply andb_prop in Hall as [Hc Hrest].
  cbn [utf8.range_from]. unfold utf8.DecodeRuneInString, utf8.first.
  rewrite Hc. cbn [Nat.pred]. rewrite (IH Hrest). reflexivity.
Qed.

Lemma ascii_letter_not_lower `{Tables} b :
  0 <= b < 128 -> IsLetter b && negb (IsLower b) = asciiUpper b.
Proof.
  intros Hb. unfold IsLetter, IsLower, latin1, MaxLatin1, properties, asciiUpper.
  destruct (Z.leb_spec 0 b); [| lia]. destruct (Z.leb_spec b 255); [| lia].
  cbn [andb].
  repeat match goal with
         | |- context [?x <=? ?y] => destruct (Z.leb_spec x y); try lia
         | |- context [?x =? ?y] => destruct (Z.eqb_spec x y); try lia
         end; reflexivity.
Qed.

Lemma ascii_letter_not_upper `{Tables} b :
  0 <= b < 128 -> IsLetter b && negb (IsUpper b) = asciiLower b.
Proof.
  intros Hb. unfold IsLetter, IsUpper, latin1, MaxLatin1, properties, asciiLower.
  destruct (Z.leb_spec 0 b); [| lia]. destruct (Z.leb_spec b 255); [| lia].
  cbn [andb].
  repeat match goal with
         | |- context [?x <=? ?y] => destruct (Z.leb_spec x y); try lia
         | |- context [?x =? ?y] => destruct (Z.eqb_spec x y); try lia
         end; reflexivity.
Qed.

Lemma lowercase_loop_ascii `{Tables} l :
  Forall (fun b => 0 <= b < 128) l ->
  lowercase_loop l = if existsb asciiUpper l then
                       Some (errorString "{field} must be in lower case.") else None.
Proof.
  induction 1 as [| b l Hb Hl IH]; [reflexivity |]. simpl.
  rewrite (ascii_letter_not_lower b Hb). destruct (asciiUpper b); [reflexivity | exact IH].
Qed.

Lemma uppercase_loop_ascii `{Tables} l :
  Forall (fun b => 0 <= b < 128) l ->
  uppercase_loop l = if existsb asciiLower l then
                       Some (errorString "{field} must be in upper case.") else None.
Proof.
  induction 1 as [| b l Hb Hl IH]; [reflexivity |]. simpl.
  rewrite (ascii_letter_not_upper b Hb). destruct (asciiLower b); [reflexivity | exact IH].
Qed.

Lemma allAscii_bytes s : allAscii s = true -> Forall (fun b => 0 <= b < 128) (bytes s).
Proof.
  unfold allAscii. induction s as [| c rest IH]; simpl; intros Hall; constructor.
  - apply andb_prop in Hall as [Hc _]. pose proof (byte_val_range c). lia.
  - apply IH. apply andb_prop in Hall. tauto.
Qed.

Section WithTables.

Context `{Tables}.

(** X5. A built-in validator that returns an error has left the context
    exactly as it was, whatever the options. *)
Theorem error_leaves_context name f (ctx : ValidatorContext) options :
  In (name, f) registerDefaultValidators ->
  snd (f ctx options) <> None ->
  fst (f ctx options) = ctx.
Proof.
  intros Hin. registered Hin; paths ctx; intros Herr;
    try reflexivity; exfalso; apply Herr; reflexivity.
Qed.

(** X6. No built-in validator writes IsNil, and the only write to Value
    is that of IsNumeric, which puts the int64 that ParseInt read in the
    place of a string and returns nil. *)
Theorem Value_written_by_IsNumeric_only name f (ctx : ValidatorContext) options :
  In (name, f) registerDefaultValidators ->
  IsNil (fst (f ctx options)) = IsNil ctx
  /\ (Value (fst (f ctx options)) = Value ctx
      \/ name = "numeric"
         /\ exists s n, Value ctx = VString s
                        /\ strconv.ParseInt s 32 = (n, None)
                        /\ f ctx options = (set_Value ctx (VInt64 n), None)).
Proof.
  intros Hin. registered Hin; paths ctx; split; try reflexivity;
    try (left; reflexivity).
  right. split; [reflexivity |]. eauto.
Qed.

(** X7. The coercion of IsNumeric is seen by the validators that only
    take strings: after an IsNumeric that returned nil, IsNumeric,
    IsLowerCase and IsUpperCase called without options on the context
    return their unsupported-type error, with the type int64, and leave
    the context as it is. *)
Theorem after_IsNumeric_string_validators_refuse (ctx : ValidatorContext) :
  snd (IsNumeric ctx []) = None ->
  let ctx' := fst (IsNumeric ctx []) in
  IsNumeric ctx' [] = (ctx', Some (unsupported "numeric" (Some TInt64)))
  /\ IsLowerCase ctx' [] = (ctx', Some (unsupported "lowercase" (Some TInt64)))
  /\ IsUpperCase ctx' [] = (ctx', Some (unsupported "uppercase" (Some TInt64))).
Proof.
  destruct ctx as [v nil stop]. unfold IsNumeric at 1 2.
  cbn [length Nat.ltb Nat.leb Value IsNil].
  destruct v; try discriminate.
  destruct (nil || (len s =? 0)); [discriminate |].
  destruct (strconv.ParseInt s 32) as [n [e |]]; [discriminate |].
  intros _. repeat split.
Qed.

(** X8. On a string that is not nil IsLowerCase, without options,
    returns nil when every rune of the string that is a letter is a
    lower-case one, and "{field} must be in lower case." otherwise;
    IsUpperCase likewise with upper case.  The runes are those of the
    UTF-8 decoding of the string; the context is left as it was. *)
Theorem case_validators_by_rune (ctx : ValidatorContext) (s : string) :
  Value ctx = VString s ->
  IsNil ctx = false ->
  IsLowerCase ctx [] =
    (ctx, if forallb (fun char => implb (IsLetter char) (IsLower char)) (utf8.range s)
          then None else Some (errorString "{field} must be in lower case."))
  /\ IsUpperCase ctx [] =
    (ctx, if forallb (fun char => implb (IsLetter char) (IsUpper char)) (utf8.range s)
          then None else Some (errorString "{field} must be in upper case.")).
Proof.
  intros Hv Hnil. destruct ctx as [v nil stop]. simpl in Hv, Hnil. subst v nil.
  unfold IsLowerCase, IsUpperCase. cbn [length Nat.ltb Nat.leb Value IsNil orb].
  rewrite lowercase_loop_forallb, uppercase_loop_forallb.
  destruct s as [| c s]; split; reflexivity.
Qed.

(** X9. On a string of ASCII bytes that is not nil, whatever the tables
    of the runes above Latin-1, IsLowerCase returns nil exactly when no
    byte is one of 'A' to 'Z', and IsUpperCase exactly when no byte is
    one of 'a' to 'z'. *)
Theorem case_validators_ascii (ctx : ValidatorContext) (s : string) :
  Value ctx = VString s ->
  IsNil ctx = false ->
  allAscii s = true ->
  (snd (IsLowerCase ctx []) = None <-> existsb asciiUpper (bytes s) = false)
  /\ (snd (IsUpperCase ctx []) = None <-> existsb asciiLower (bytes s) = false).
Proof.
  intros Hv Hnil Hascii. destruct ctx as [v nil stop]. simpl in Hv, Hnil. subst v nil.
  unfold IsLowerCase, IsUpperCase. cbn [length Nat.ltb Nat.leb Value IsNil orb].
  destruct s as [| c s]; [split; split; reflexivity |].
  change (len (String c s) =? 0) with false. cbv iota. cbn [snd].
  rewrite (range_ascii _ Hascii).
  rewrite (lowercase_loop_ascii _ (allAscii_bytes _ Hascii)).
  rewrite (uppercase_loop_ascii _ (allAscii_bytes _ Hascii)).
  destruct (existsb asciiUpper (bytes (String c s)));
    destruct (existsb asciiLower (bytes (String c s)));
    split; split; intros E; try reflexivity; discriminate.
Qed.

(** X10. A context whose IsNil is set around a value that is no string,
    int64 or float64 -- a nil pointer or a nil interface -- is taken
    differently by the validators: IsEmpty sets StopValidate and
    returns nil, IsNotEmpty returns "{field} cannot be empty.", and
    IsMin, IsMax (with an option that reads as an integer),
    IsLowerCase, IsUpperCase and IsNumeric return their unsupported-type
    error for the type of the value. *)
Theorem nil_of_other_type (ctx : ValidatorContext) (a : string) (threshold : Z) :
  IsNil ctx = true ->
  ~ supported (Value ctx) ->
  parsesAs a threshold ->
  IsEmpty ctx [] = (set_StopValidate ctx true, None)
  /\ IsNotEmpty ctx [] = (ctx, Some (errorString "{field} cannot be empty."))
  /\ IsMin ctx [a] = (ctx, Some (unsupported "min" (TypeOf (Value ctx))))
  /\ IsMax ctx [a] = (ctx, Some (unsupported "max" (TypeOf (Value ctx))))
  /\ IsLowerCase ctx [] = (ctx, Some (unsupported "lowercase" (TypeOf (Value ctx))))
  /\ IsUpperCase ctx [] = (ctx, Some (unsupported "uppercase" (TypeOf (Value ctx))))
  /\ IsNumeric ctx [] = (ctx, Some (unsupported "numeric" (TypeOf (Value ctx)))).
Proof.
  intros Hnil Hsup Ha. destruct ctx as [v nil stop]. simpl in Hnil, Hsup. subst nil.
  unfold parsesAs in Ha. unfold IsMin, IsMax. rewrite Ha.
  destruct v; simpl in Hsup; try (exfalso; apply Hsup; exact I); repeat split.
Qed.

End WithTables.

Lemma error_leaves_context_witness :
  let ctx := {| Value := VString "12a"; IsNil := false; StopValidate := false |} in
  fst (IsNumeric ctx []) = ctx.
Proof.
  intros ctx.
  apply (@error_leaves_context fixtures.latin1Tables "numeric" IsNumeric ctx []).
  - do 6 right. left. reflexivity.
  - discriminate.
Defined.

Lemma Value_written_by_IsNumeric_only_witness :
  let ctx := {| Value := VString "7"; IsNil := false; StopValidate := false |} in
  IsNil (fst (IsMax ctx ["3"])) = IsNil ctx
  /\ (Value (fst (IsMax ctx ["3"])) = Value ctx
      \/ "max" = "numeric"
         /\ exists s n, Value ctx = VString s
                        /\ strconv.ParseInt s 32 = (n, None)
                        /\ IsMax ctx ["3"] = (set_Value ctx (VInt64 n), None)).
Proof.
  intros ctx.
  apply (@Value_written_by_IsNumeric_only fixtures.latin1Tables "max" IsMax ctx ["3"]).
  do 3 right. left. reflexivity.
Defined.

Lemma after_IsNumeric_string_validators_refuse_witness :
  let ctx := {| Value := VString "7"; IsNil := false; StopValidate := false |} in
  let ctx' := fst (IsNumeric ctx []) in
  IsNumeric ctx' [] = (ctx', Some (unsupported "numeric" (Some TInt64)))
  /\ @IsLowerCase fixtures.latin1Tables ctx' []
     = (ctx', Some (unsupported "lowercase" (Some TInt64)))
  /\ @IsUpperCase fixtures.latin1Tables ctx' []
     = (ctx', Some (unsupported "uppercase" (Some TInt64))).
Proof.
  intros ctx.
  apply (@after_IsNumeric_string_validators_refuse fixtures.latin1Tables ctx).
  reflexivity.
Defined.

Lemma case_validators_by_rune_witness :
  let ctx := {| Value := VString "a1!"; IsNil := false; StopValidate := false |} in
  @IsLowerCase fixtures.latin1Tables ctx [] = (ctx, None)
  /\ @IsUpperCase fixtures.latin1Tables ctx []
     = (ctx, Some (errorString "{field} must be in upper case.")).
Proof.
  intros ctx.
  apply (@case_validators_by_rune fixtures.latin1Tables ctx "a1!"); reflexivity.
Defined.

Lemma case_validators_ascii_witness :
  let ctx := {| Value := VString "abC"; IsNil := false; StopValidate := false |} in
  (snd (@IsLowerCase fixtures.latin1Tables ctx []) = None
   <-> existsb asciiUpper (bytes "abC") = false)
  /\ (snd (@IsUpperCase fixtures.latin1Tables ctx []) = None
      <-> existsb asciiLower (bytes "abC") = false).
Proof.
  intros ctx.
  apply (@case_validators_ascii fixtures.latin1Tables ctx "abC"); reflexivity.
Defined.

Lemma nil_of_other_type_witness :
  let ctx := {| Value := VOther (OPtr TString); IsNil := true; StopValidate := false |} in
  IsEmpty ctx [] = (set_StopValidate ctx true, None)
  /\ IsNotEmpty ctx [] = (ctx, Some (errorString "{field} cannot be empty."))
  /\ IsMin ctx ["1"] = (ctx, Some (unsupported "min" (TypeOf (Value ctx))))
  /\ IsMax ctx ["1"] = (ctx, Some (unsupported "max" (TypeOf (Value ctx))))
  /\ @IsLowerCase fixtures.latin1Tables ctx []
     = (ctx, Some (unsupported "lowercase" (TypeOf (Value ctx))))
  /\ @IsUpperCase fixtures.latin1Tables ctx []
     = (ctx, Some (unsupported "uppercase" (TypeOf (Value ctx))))
  /\ IsNumeric ctx [] = (ctx, Some (unsupported "numeric" (TypeOf (Value ctx)))).
Proof.
  intros ctx.
  apply (@nil_of_other_type fixtures.latin1Tables ctx "1" 1);
    [reflexivity | intros Hs; exact Hs | reflexivity].
Defined.

End validators_more.

(** * Further properties of package core *)

Module core_more.

Import core core_props core_spec more_props.

Section FullName.

Variable any : Type.
Variable TagGroup : Type.

Local Abbreviation ReflectedField := (ReflectedField any TagGroup).

Lemma chain_ancestors (p : ReflectedField) :
  chain p = (ancestors p ++ [Name p])%list.
Proof. unfold ancestors. destruct p as [[q |] name v g]; reflexivity. Qed.

Lemma nonEmpty_named name : name <> "" -> nonEmpty [name] = [name].
Proof. destruct name; [congruence | reflexivity]. Qed.

Lemma nonEmpty_unnamed : nonEmpty [""] = [].
Proof. reflexivity. Qed.

Lemma bare_named (this : ReflectedField) : Name this <> "" -> bare this = false.
Proof.
  unfold bare. intros Hn. destruct (nonEmpty (ancestors this)); [| reflexivity].
  destruct (String.eqb_spec (Name this) ""); [congruence | reflexivity].
Qed.

Lemma FullName_bare (this : ReflectedField) postfix :
  FullName this postfix =
    if bare this then dotted postfix else dotted (segments this postfix).
Proof. rewrite <- base_empty. apply FullName_by_base. Qed.

(** X11. Nesting and postfix agree.  The full name of a field below a
    parent that has a name is the full name of the parent asked with the
    field's name in front of the postfix: a nested path can be built
    either way. *)
Theorem FullName_of_child (this : ReflectedField) name v groups postfix :
  Name this <> "" ->
  FullName {| Parent := Some this; Name := name; Value := v; TagGroups := groups |}
           postfix
  = FullName this (name :: postfix).
Proof.
  intros Hn. rewrite !FullName_bare, (bare_named this Hn).
  unfold bare, segments, ancestors at 1 2. cbn [Parent Name].
  rewrite chain_ancestors, nonEmpty_app, (nonEmpty_named _ Hn).
  destruct (nonEmpty (ancestors this) ++ [Name this])%list eqn:E.
  - destruct (nonEmpty (ancestors this)); discriminate.
  - rewrite <- E, <- app_assoc. reflexivity.
Qed.

(** X12. Postfix segments add up: with a segment [q] or more, the full
    name for the postfix [p ++ q] is the full name for [p], a dot, and
    the segments of [q] joined by dots -- unless [p] is empty and the
    field has neither a name nor a named ancestor, where no dot is put
    in front. *)
Theorem FullName_postfix_app (this : ReflectedField) (p q : list string) :
  p <> [] \/ bare this = false ->
  q <> [] ->
  FullName this (p ++ q) = (FullName this p ++ "." ++ dotted q)%string.
Proof.
  intros Hp Hq. rewrite !FullName_bare. destruct (bare this).
  - destruct Hp as [Hp | Hp]; [| discriminate]. apply dotted_app; assumption.
  - assert (Hseg : segments this (p ++ q) = (segments this p ++ q)%list).
    { unfold segments. rewrite !app_assoc. reflexivity. }
    rewrite Hseg. apply dotted_app; [| assumption].
    unfold segments. destruct (nonEmpty (ancestors this)); discriminate.
Qed.

(** X13. A parent without a name does not show: a field below a
    parent whose name is empty has the full name it would have directly
    below that parent's own parent. *)
Theorem FullName_unnamed_parent (p : ReflectedField) name v groups postfix :
  Name p = "" ->
  FullName {| Parent := Some p; Name := name; Value := v; TagGroups := groups |}
           postfix
  = FullName {| Parent := Parent p; Name := name; Value := v; TagGroups := groups |}
             postfix.
Proof.
  intros Hn. rewrite !FullName_bare.
  assert (Hanc : nonEmpty (ancestors {| Parent := Some p; Name := name;
                                        Value := v; TagGroups := groups |})
                 = nonEmpty (ancestors {| Parent := Parent p; Name := name;
                                          Value := v; TagGroups := groups |})).
  { unfold ancestors at 1. cbn [Parent].
    rewrite chain_ancestors, nonEmpty_app, Hn, nonEmpty_unnamed, app_nil_r.
    reflexivity. }
  unfold bare, segments. rewrite Hanc. reflexivity.
Qed.

End FullName.

Lemma FullName_of_child_witness :
  let outer : ReflectedField unit unit :=
    {| Parent := None; Name := "Outer"; Value := tt; TagGroups := [] |} in
  FullName {| Parent := Some outer; Name := "Inner"; Value := tt; TagGroups := [] |}
           ["0"]
  = FullName outer ["Inner"; "0"].
Proof.
  intros outer. apply (FullName_of_child unit unit outer "Inner" tt [] ["0"]).
  discriminate.
Defined.

Lemma FullName_postfix_app_witness :
  let this : ReflectedField unit unit :=
    {| Parent := None; Name := ""; Value := tt; TagGroups := [] |} in
  FullName this (["a"] ++ ["b"; "c"]) = (FullName this ["a"] ++ "." ++ dotted ["b"; "c"])%string.
Proof.
  intros this. apply (FullName_postfix_app unit unit this ["a"] ["b"; "c"]).
  - left. discriminate.
  - discriminate.
Defined.

Lemma FullName_unnamed_parent_witness :
  let root : ReflectedField unit unit :=
    {| Parent := None; Name := "Root"; Value := tt; TagGroups := [] |} in
  let wrapper : ReflectedField unit unit :=
    {| Parent := Some root; Name := ""; Value := tt; TagGroups := [] |} in
  FullName {| Parent := Some wrapper; Name := "Leaf"; Value := tt; TagGroups := [] |} []
  = FullName {| Parent := Some root; Name := "Leaf"; Value := tt; TagGroups := [] |} [].
Proof.
  intros root wrapper.
  apply (FullName_unnamed_parent unit unit wrapper "Leaf" tt [] []). reflexivity.
Defined.

Section Walk.

Context `{unicode.Tables}.
Variable any : Type.
Variable TagGroup : Type.
Variable tagError : Type.
Variable parseTag : string -> list TagGroup * option tagError.
Variable StructTag_Get : string -> string -> string.

Local Abbreviation loop := (GetStructFields_loop parseTag StructTag_Get).
Local Abbreviation walked := (GetStructFields parseTag StructTag_Get).
Local Abbreviation parsed field tagName :=
  (parseTag (StructTag_Get (StructField_Tag field) tagName)).

Lemma loop_success tagName (fields : list (StructField * any)) :
  forall acc fs,
    loop tagName (map (fun fv => (fst fv, Some (snd fv))) fields) acc = Return (fs, None) ->
    fs = (acc ++ map (descriptor parseTag StructTag_Get tagName)
                     (filter (fun fv => takenUp (fst fv)) fields))%list
    /\ Forall (readable parseTag StructTag_Get tagName) fields.
Proof.
  induction fields as [| [field v] rest IH]; intros acc fs.
  - simpl. intros E. inversion E. rewrite app_nil_r. auto.
  - cbn [map fst snd GetStructFields_loop filter].
    assert (Htaken : takenUp field
                     = match firstByteIsUpper (StructField_Name field) with
                       | Return b => b
                       | Panic => false
                       end) by reflexivity.
    destruct (firstByteIsUpper (StructField_Name field)) as [[|] |];
      cbn [bind]; rewrite Htaken; [| | discriminate].
    + destruct (parsed field tagName) as [tagGroups [err |]] eqn:Hparse;
        [discriminate |].
      unfold Field_Interface.
      destruct (0 <? String.length (StructField_PkgPath field))%nat eqn:Hpkg;
        cbn [bind]; [discriminate |].
      intros E. apply IH in E as [-> Hrest].
      split.
      * rewrite <- app_assoc. cbn [map]. unfold descriptor at 2. cbn [fst snd].
        rewrite Hparse. reflexivity.
      * constructor; [| exact Hrest]. intros _. cbn [fst].
        rewrite Hparse. split; [apply length_zero; exact Hpkg | reflexivity].
    + intros E. apply IH in E as [-> Hrest]. split; [reflexivity |].
      constructor; [| exact Hrest]. unfold readable. cbn [fst].
      rewrite Htaken. discriminate.
Qed.

(** X14. What a walk that returns no error has returned.  On a struct,
    passed by value or by pointer, the descriptors are those of the
    fields whose name has an upper-case first byte, in the order of
    declaration, each with the field's name, its value and the groups
    its tag parses to; every such field was exported and its tag parsed.
    No descriptor has a parent, so the full name of each is its name. *)
Theorem GetStructFields_success
    (value : structArg any) (fields : list (StructField * any)) tagName fs :
  value = ByValue fields \/ value = ByPointer fields ->
  walked value tagName = Return (fs, None) ->
  fs = map (descriptor parseTag StructTag_Get tagName)
           (filter (fun fv => takenUp (fst fv)) fields)
  /\ Forall (readable parseTag StructTag_Get tagName) fields
  /\ forall d, In d fs -> Parent d = None /\ FullName d [] = Name d.
Proof.
  intros Hvalue. unfold GetStructFields.
  assert (Hall : reflectValue value
                 = Return (map (fun fv => (fst fv, Some (snd fv))) fields))
    by (destruct Hvalue; subst; reflexivity).
  rewrite Hall. simpl. intros E. apply loop_success in E as [-> Hread].
  split; [reflexivity |]. split; [exact Hread |].
  intros d Hd. simpl in Hd. apply in_map_iff in Hd as [fv [<- _]].
  split; reflexivity.
Qed.

(** X15. What a walk that returns an error has returned: the nil list,
    and the error parseTag gave for the tag of a field of the struct
    whose name has an upper-case first byte. *)
Theorem GetStructFields_error_origin (value : structArg any) tagName fs err :
  walked value tagName = Return (fs, Some err) ->
  fs = []
  /\ exists all field v,
       reflectValue value = Return all
       /\ In (field, v) all
       /\ takenUp field = true
       /\ snd (parsed field tagName) = Some err.
Proof.
  unfold GetStructFields. destruct (reflectValue value) as [all |] eqn:Hall;
    simpl; [| discriminate].
  intros E. apply loop_error in E as [-> [field [v [Hin [Hup Herr]]]]].
  split; [reflexivity |]. exists all, field, v.
  unfold takenUp. rewrite Hup. auto.
Qed.

Lemma loop_nil_pointer tagName (fields : list StructField) :
  let noneTaken :=
    Forall (fun f => firstByteIsUpper (StructField_Name f) = Return false) fields in
  match loop tagName (map (fun f => (f, @None any)) fields) [] with
  | Return (fs, None) => fs = [] /\ noneTaken
  | Return (fs, Some _) => fs = [] /\ ~ noneTaken
  | Panic => ~ noneTaken
  end.
Proof.
  induction fields as [| field rest IH]; simpl; [auto |].
  destruct (firstByteIsUpper (StructField_Name field)) as [[|] |] eqn:Hup; simpl.
  - destruct (parsed field tagName) as [tagGroups [err |]]; simpl.
    + split; [reflexivity |]. intros Hall. inversion Hall; congruence.
    + intros Hall. inversion Hall; congruence.
  - simpl in IH.
    destruct (loop tagName (map (fun f => (f, @None any)) rest) [])
      as [[fs [err |]] |].
    + destruct IH as [-> Hrest]. split; [reflexivity |].
      intros Hall. inversion Hall; auto.
    + destruct IH as [-> Hrest]. auto.
    + intros Hall. inversion Hall; auto.
  - intros Hall. inversion Hall; congruence.
Qed.

(** X16. Behind a nil pointer to a struct there is nothing to read: the
    walk returns no descriptor whatever happens, and it returns without
    an error exactly when the struct has no field whose name has an
    upper-case first byte. *)
Theorem GetStructFields_nil_pointer (fields : list StructField) tagName :
  (forall fs err, walked (@NilPointer any fields) tagName = Return (fs, err) -> fs = [])
  /\ (walked (@NilPointer any fields) tagName = Return ([], None)
      <-> Forall (fun f => firstByteIsUpper (StructField_Name f) = Return false) fields).
Proof.
  unfold GetStructFields. simpl.
  pose proof (loop_nil_pointer tagName fields) as Hloop. simpl in Hloop.
  destruct (loop tagName (map (fun f => (f, @None any)) fields) [])
    as [[fs [err |]] |].
  - destruct Hloop as [-> Hnot].
    split; [intros fs' err' E; inversion E; reflexivity |].
    split; [discriminate | intros Hall; contradiction].
  - destruct Hloop as [-> Hall].
    split; [intros fs' err' E; inversion E; reflexivity |]. tauto.
  - split; [discriminate |]. split; [discriminate | intros Hall; contradiction].
Qed.

End Walk.

Section Call.

Variable any : Type.
Variable rtype : Type.
Variable TypeOf : any -> option rtype.
Variable rtype_eqb : rtype -> rtype -> bool.
Variable isInterface : rtype -> bool.

Local Abbreviation call := (CallDynamicMethod TypeOf rtype_eqb isInterface).
Local Abbreviation lets_through := (accepts TypeOf rtype_eqb isInterface).
Local Abbreviation check := (mismatch TypeOf rtype_eqb isInterface).

(** X17. The errors CallDynamicMethod returns.  An error comes with the
    nil list of results and is "Method does not exist." or "Arguments
    does not match those of target function."; "Unhandled function call
    error." is never returned. *)
Theorem CallDynamicMethod_errors (i : target any rtype) methodName args results err :
  call i methodName args = Return (results, Some err) ->
  results = [] /\ (err = InvalidMethodError \/ err = InputParameterMismatchError).
Proof.
  unfold CallDynamicMethod.
  destruct (value_and_ptr i) as [[value ptr] |]; simpl; [| discriminate].
  destruct (MethodByName value methodName) as [onValue |]; simpl; [| discriminate].
  destruct (MethodByName ptr methodName) as [[m |] |]; simpl; [| | discriminate].
  - destruct (negb (length args =? length (Method_In m))%nat);
      [intros E; inversion E; auto |].
    destruct (check (Method_In m) args); [intros E; inversion E; auto |].
    destruct (Method_Call m ViaPointer args); simpl; discriminate.
  - intros E. inversion E. auto.
Qed.

Lemma check_Forall2 (ins : list rtype) : forall args,
  length args = length ins ->
  check ins args = false <-> Forall2 lets_through ins args.
Proof.
  induction ins as [| inputType ins IH]; intros [| arg args] Hlen;
    simpl in Hlen; try discriminate.
  - split; [constructor | reflexivity].
  - injection Hlen as Hlen. specialize (IH args Hlen). simpl.
    unfold sameType, accepts at 1.
    destruct (isInterface inputType) eqn:Hi; simpl.
    + rewrite IH. split; [intros Hrest; constructor; auto |].
      intros Hall. inversion Hall; assumption.
    + destruct (TypeOf arg) as [t |] eqn:Ht; simpl.
      * destruct (rtype_eqb t inputType) eqn:Heq; simpl.
        -- rewrite IH. split.
           ++ intros Hrest. constructor; [| exact Hrest].
              right. exists t. rewrite Ht. auto.
           ++ intros Hall. inversion Hall; assumption.
        -- split; [discriminate |]. intros Hall. inversion Hall as [| ? ? ? ? Hacc ]; subst.
           destruct Hacc as [Hc | [t' [Ht' Heq']]]; [congruence |].
           rewrite Ht in Ht'. inversion Ht'; subst. congruence.
      * split; [discriminate |]. intros Hall. inversion Hall as [| ? ? ? ? Hacc ]; subst.
        destruct Hacc as [Hc | [t' [Ht' Heq']]]; [congruence |].
        rewrite Ht in Ht'. discriminate.
Qed.

(** X18. The check of the arguments.  When the name resolves on the
    reference form to a method, the method is called, bound to the
    pointer, exactly when there are as many arguments as parameters and
    each argument has the very type of its parameter or the parameter is
    of interface kind (which lets anything through, a nil argument
    too); in every other case "Arguments does not match those of target
    function." is returned and the method is not called. *)
Theorem CallDynamicMethod_checks_arguments
    (i : target any rtype) methodName args value ptr onValue m :
  value_and_ptr i = Return (value, ptr) ->
  MethodByName value methodName = Return onValue ->
  MethodByName ptr methodName = Return (Some m) ->
  (Forall2 lets_through (Method_In m) args ->
   call i methodName args
   = bind (Method_Call m ViaPointer args) (fun results => Return (results, None)))
  /\ (~ Forall2 lets_through (Method_In m) args ->
      call i methodName args = Return ([], Some InputParameterMismatchError))
  /\ (call i methodName args = Return ([], Some InputParameterMismatchError)
      <-> ~ Forall2 lets_through (Method_In m) args).
Proof.
  intros Hvp Hval Hptr.
  assert (Hcall : call i methodName args =
            if negb (length args =? length (Method_In m))%nat
            then Return ([], Some InputParameterMismatchError)
            else if check (Method_In m) args
            then Return ([], Some InputParameterMismatchError)
            else bind (Method_Call m ViaPointer args)
                      (fun results => Return (results, None))).
  { unfold CallDynamicMethod. rewrite Hvp. simpl. rewrite Hval. simpl.
    rewrite Hptr. reflexivity. }
  rewrite Hcall. clear Hcall.
  destruct (Nat.eqb_spec (length args) (length (Method_In m))) as [Hlen | Hlen];
    cbn [negb].
  - pose proof (check_Forall2 (Method_In m) args Hlen) as Hcheck.
    destruct (check (Method_In m) args).
    + assert (Hnot : ~ Forall2 lets_through (Method_In m) args)
        by (intros Hall; apply Hcheck in Hall; discriminate).
      split; [intros Hall; contradiction |]. split; [reflexivity |]. tauto.
    + assert (Hall : Forall2 lets_through (Method_In m) args) by (apply Hcheck; reflexivity).
      split; [reflexivity |]. split; [intros Hnot; contradiction |].
      split; [| intros Hnot; contradiction].
      destruct (Method_Call m ViaPointer args); simpl; discriminate.
  - assert (Hnot : ~ Forall2 lets_through (Method_In m) args).
    { intros Hall. apply Forall2_length in Hall. congruence. }
    split; [intros Hall; contradiction |]. split; [reflexivity |]. tauto.
Qed.

Lemma find_method (d : DefinedType any rtype) methodName :
  MethodByName (Val (Defined d) false) methodName
  = Return (find (fun m => String.eqb (Method_Name m) methodName) (valueReceiver d))
  /\ MethodByName (Val (PtrTo (Defined d)) false) methodName
     = Return (find (fun m => String.eqb (Method_Name m) methodName)
                    (valueReceiver d ++ pointerReceiver d)).
Proof.
  unfold MethodByName. simpl.
  destruct (find _ (valueReceiver d)); destruct (find _ (valueReceiver d ++ pointerReceiver d));
    split; reflexivity.
Qed.

(** X19. On a value of a defined type, and on a pointer to one, the
    methods that can be called are those of the pointer: the ones
    declared with a value receiver and the ones declared with a pointer
    receiver alike.  A name found among them is called bound to the
    pointer when the arguments pass the check; a name not found among
    them gives "Method does not exist.". *)
Theorem CallDynamicMethod_method_set
    (d : DefinedType any rtype) (i : target any rtype) methodName args :
  i = TValue d \/ i = TPointer (Defined d) (Pointee false) ->
  match find (fun m => String.eqb (Method_Name m) methodName)
             (valueReceiver d ++ pointerReceiver d) with
  | Some m =>
      Forall2 lets_through (Method_In m) args ->
      call i methodName args
      = bind (Method_Call m ViaPointer args) (fun results => Return (results, None))
  | None => call i methodName args = Return ([], Some InvalidMethodError)
  end.
Proof.
  intros Hi.
  assert (Hvp : value_and_ptr i
                = Return (Val (Defined d) false, Val (PtrTo (Defined d)) false))
    by (destruct Hi; subst; reflexivity).
  destruct (find_method d methodName) as [Hval Hptr].
  unfold CallDynamicMethod. rewrite Hvp. cbn [bind fst snd]. rewrite Hval.
  cbn [bind]. rewrite Hptr. cbn [bind].
  destruct (find _ (valueReceiver d ++ pointerReceiver d)) as [m |]; [| reflexivity].
  intros Hall.
  pose proof (Forall2_length Hall) as Hlen. symmetry in Hlen.
  rewrite Hlen, Nat.eqb_refl. cbn [negb].
  rewrite (proj2 (check_Forall2 (Method_In m) args Hlen) Hall). reflexivity.
Qed.

End Call.

Lemma CallDynamicMethod_errors_witness :
  ([] : list string) = []
  /\ (InvalidMethodError = InvalidMethodError
      \/ InvalidMethodError = InputParameterMismatchError).
Proof.
  apply (CallDynamicMethod_errors string unit
           fixtures.TypeOf fixtures.rtype_eqb fixtures.isInterface
           (TValue fixtures.Greeter) "Bye" [] [] InvalidMethodError).
  reflexivity.
Defined.

Lemma CallDynamicMethod_checks_arguments_witness :
  CallDynamicMethod fixtures.TypeOf fixtures.rtype_eqb fixtures.isInterface
    (TValue fixtures.Greeter) "Hello" ["x"]
  = Return ([], Some InputParameterMismatchError).
Proof.
  refine (proj1 (proj2 (CallDynamicMethod_checks_arguments string unit
            fixtures.TypeOf fixtures.rtype_eqb fixtures.isInterface
            (TValue fixtures.Greeter) "Hello" ["x"] _ _ None fixtures.Hello
            eq_refl eq_refl eq_refl)) _).
  intros Hall. inversion Hall.
Defined.

Lemma CallDynamicMethod_method_set_witness :
  CallDynamicMethod fixtures.TypeOf fixtures.rtype_eqb fixtures.isInterface
    (TValue fixtures.Greeter) "Hello" []
  = Return (["pointer receiver"], None).
Proof.
  refine (CallDynamicMethod_method_set string unit
            fixtures.TypeOf fixtures.rtype_eqb fixtures.isInterface
            fixtures.Greeter (TValue fixtures.Greeter) "Hello" []
            (or_introl eq_refl) _).
  constructor.
Defined.

Lemma GetStructFields_success_witness :
  let hidden := {| StructField_Name := "hidden"; StructField_PkgPath := "main";
                   StructField_Tag := "min:1" |} in
  let Shown := {| StructField_Name := "Shown"; StructField_PkgPath := "";
                  StructField_Tag := "not_empty" |} in
  [ {| Parent := None; Name := "Shown"; Value := "s"; TagGroups := ["not_empty"] |} ]
  = map (descriptor fixtures.parseTag fixtures.StructTag_Get "validate")
        (filter (fun fv => @takenUp fixtures.latin1Tables (fst fv))
                [(hidden, "h"); (Shown, "s")]).
Proof.
  intros hidden Shown.
  refine (proj1 (@GetStructFields_success fixtures.latin1Tables string string string
            fixtures.parseTag fixtures.StructTag_Get
            (ByValue [(hidden, "h"); (Shown, "s")]) [(hidden, "h"); (Shown, "s")]
            "validate" _ (or_introl eq_refl) eq_refl)).
Defined.

Lemma GetStructFields_error_origin_witness :
  let Broken := {| StructField_Name := "Broken"; StructField_PkgPath := "";
                   StructField_Tag := "?" |} in
  ([] : list (ReflectedField string string)) = []
  /\ exists all field v,
       reflectValue (ByValue [(Broken, "b")]) = Return all
       /\ In (field, v) all
       /\ @takenUp fixtures.latin1Tables field = true
       /\ snd (fixtures.parseTag (fixtures.StructTag_Get (StructField_Tag field) "validate"))
          = Some "unknown directive".
Proof.
  intros Broken.
  apply (@GetStructFields_error_origin fixtures.latin1Tables string string string
           fixtures.parseTag fixtures.StructTag_Get
           (ByValue [(Broken, "b")]) "validate" [] "unknown directive").
  reflexivity.
Defined.

Lemma GetStructFields_nil_pointer_witness :
  let hidden := {| StructField_Name := "hidden"; StructField_PkgPath := "main";
                   StructField_Tag := "" |} in
  @GetStructFields fixtures.latin1Tables string string string
    fixtures.parseTag fixtures.StructTag_Get (NilPointer [hidden]) "validate"
  = Return ([], None).
Proof.
  intros hidden.
  apply (proj2 (@GetStructFields_nil_pointer fixtures.latin1Tables string string string
                  fixtures.parseTag fixtures.StructTag_Get [hidden] "validate")).
  constructor; [reflexivity | constructor].
Defined.

End core_more.
